(** * typeorm-transactional: the [@Transactional] decorator and its context

    A shallow embedding of [src/decorators/transactional.ts].

    The module keeps one [AsyncLocalStorage] per [DataSource] in a
    module-level [WeakMap]; the decorator consults it to decide whether a
    call joins the transaction of the enclosing call or opens its own one
    through [dataSource.transaction].

    Modelling choices, all visible in the definitions below:
    - objects ([DataSource], [AsyncLocalStorage], query runners) are named
      by a natural number standing for their reference; [===] on objects is
      equality of these references;
    - module-level mutable state (the [WeakMap], the allocation counters of
      the runtime, the trace of what reached the database) is a [Heap]
      threaded through every call;
    - the value an [AsyncLocalStorage] holds is part of the asynchronous
      execution context of one logical call chain: a finite map from
      storage references to stored values, passed down to callees;
    - an [async] function is a computation that takes the execution
      context and the heap and yields either a value or a thrown error,
      with the heap it left behind; [await] is sequencing;
    - what the module calls but does not define ([AsyncLocalStorage] of
      Node, [DataSource.transaction] and [Repository.save] of typeorm) is
      modelled from the specification and marked so;
    - the methods the decorator wraps are either arbitrary computations,
      or, where a property speaks of the calls nested in a method, bodies
      in a small syntax of what the example services do. *)

From stdpp Require Import base option gmap strings list.

Open Scope string_scope.

(** ** Data model *)

Inductive IsolationLevel : Type :=
| READ_UNCOMMITTED
| READ_COMMITTED
| REPEATABLE_READ
| SERIALIZABLE.

Inductive Propagation : Type :=
| REQUIRED
| REQUIRES_NEW.

#[global] Instance IsolationLevel_eq_dec : EqDecision IsolationLevel.
Proof. solve_decision. Defined.

#[global] Instance Propagation_eq_dec : EqDecision Propagation.
Proof. solve_decision. Defined.

(** [interface TransactionalOptions]: both fields are optional. *)
Record TransactionalOptions : Type := {
  isolation : option IsolationLevel;
  propagation : option Propagation;
}.

(** The default argument [options = {}] of the decorator factory. *)
Definition default_options : TransactionalOptions :=
  {| isolation := None; propagation := None |}.

(** A typeorm [DataSource]: its reference and the [options.type] it was
    configured with. *)
Record DataSource : Type := {
  ds_ref : nat;
  options_type : string;
}.

(** A typeorm [EntityManager]: either the manager a [DataSource] owns
    ([dataSource.manager]), which works outside any transaction, or the
    manager of a query runner on which a transaction was started. *)
Inductive EntityManager : Type :=
| DefaultManager (connection : nat)
| TransactionManager (connection : nat) (queryRunner : nat).

Definition manager (dataSource : DataSource) : EntityManager :=
  DefaultManager (ds_ref dataSource).

(** [interface TransactionContextData] *)
Record TransactionContextData : Type := {
  ctx_manager : EntityManager;
  ctx_dataSource : DataSource;
}.

(** [Repository<T>]: the manager it is bound to and the entity it serves. *)
Record Repository : Type := {
  repo_manager : EntityManager;
  repo_entity : string;
}.

#[global] Instance DataSource_eq_dec : EqDecision DataSource.
Proof. solve_decision. Defined.

#[global] Instance EntityManager_eq_dec : EqDecision EntityManager.
Proof. solve_decision. Defined.

#[global] Instance TransactionContextData_eq_dec :
  EqDecision TransactionContextData.
Proof. solve_decision. Defined.

(** JavaScript errors: [new Error(msg)] and the [TypeError] the runtime
    raises on a property read of [undefined]. *)
Inductive JsError : Type :=
| Error (message : string)
| TypeError (message : string).

#[global] Instance JsError_eq_dec : EqDecision JsError.
Proof. solve_decision. Defined.

(** What reached the database, in order. *)
Inductive Event : Type :=
| StartTransaction (connection : nat) (level : option IsolationLevel)
    (queryRunner : nat)
| CommitTransaction (queryRunner : nat)
| RollbackTransaction (queryRunner : nat)
| Saved (via : EntityManager) (row : string).

#[global] Instance Event_eq_dec : EqDecision Event.
Proof. solve_decision. Defined.

(** Module-level and runtime state.  [transactionContexts] is the
    [WeakMap<DataSource, AsyncLocalStorage>] of the module, keyed by the
    reference of the [DataSource]; [next_storage] and [next_queryRunner]
    number the objects allocated so far; [log] is the database trace,
    oldest event first. *)
Record Heap : Type := {
  transactionContexts : gmap nat nat;
  next_storage : nat;
  next_queryRunner : nat;
  log : list Event;
}.

Definition empty_heap : Heap :=
  {| transactionContexts := ∅; next_storage := 0;
     next_queryRunner := 0; log := [] |}.

(** The asynchronous execution context of one call chain: what each
    [AsyncLocalStorage] currently holds for it. *)
Abbreviation AsyncContext := (gmap nat TransactionContextData).

(** ** Asynchronous computations *)

Inductive Outcome (A : Type) : Type :=
| Returned (a : A)
| Thrown (e : JsError).

Arguments Returned {A} a.
Arguments Thrown {A} e.

Definition Async (A : Type) : Type :=
  AsyncContext → Heap → Outcome A * Heap.

#[global] Instance Async_ret : MRet Async :=
  λ A a _ h, (Returned a, h).

#[global] Instance Async_bind : MBind Async :=
  λ A B k m env h,
    match m env h with
    | (Returned a, h') => k a env h'
    | (Thrown e, h') => (Thrown e, h')
    end.

Definition throw {A} (e : JsError) : Async A :=
  λ _ h, (Thrown e, h).

(** [try { body } catch (e) { handler(e) }] *)
Definition try_catch {A} (body : Async A) (handler : JsError → Async A)
  : Async A :=
  λ env h,
    match body env h with
    | (Returned a, h') => (Returned a, h')
    | (Thrown e, h') => handler e env h'
    end.

Definition emit (ev : Event) (h : Heap) : Heap :=
  {| transactionContexts := transactionContexts h;
     next_storage := next_storage h;
     next_queryRunner := next_queryRunner h;
     log := log h ++ [ev] |}.

(** ** The runtime and typeorm, as the module uses them *)

(** Modelled from the spec: [AsyncLocalStorage] belongs to the Node
    runtime, which is not among the sources.  Following section 4.2 of the
    specification, [storage.getStore()] is the value the storage holds in
    the execution context of the call chain that asks, [undefined] when
    there is none. *)
Definition getStore (storage : nat) : Async (option TransactionContextData) :=
  λ env h, (Returned (env !! storage), h).

(** Modelled from the spec: [storage.run(store, callback)] of the Node
    runtime.  Following section 4.2 of the specification, the callback,
    with everything it calls and awaits, sees [store] in the storage; the
    context of the caller is what it was once the callback is over,
    however it ends. *)
Definition run {A} (storage : nat) (store : TransactionContextData)
    (callback : Async A) : Async A :=
  λ env h, callback (<[storage := store]> env) h.

(** [queryRunner.startTransaction(level)] on a query runner created for
    the occasion: the runner is numbered and the start reaches the
    database. *)
Definition startTransaction (dataSource : DataSource)
    (level : option IsolationLevel) (h : Heap) : Heap :=
  {| transactionContexts := transactionContexts h;
     next_storage := next_storage h;
     next_queryRunner := S (next_queryRunner h);
     log := log h ++ [StartTransaction (ds_ref dataSource) level
                        (next_queryRunner h)] |}.

(** Modelled from the spec: [DataSource.transaction] belongs to typeorm,
    which is not among the sources.  Following sections 4.4 and 6 of the
    specification, it starts a transaction on a query runner of its own
    (optionally at the given isolation level), hands the manager bound to
    that transaction to the callback, commits and returns the callback's
    result when the callback completes, and rolls back and rethrows the
    same error when the callback fails. *)
Definition transaction {A} (dataSource : DataSource)
    (level : option IsolationLevel)
    (runInTransaction : EntityManager → Async A) : Async A :=
  λ env h,
    let qr := next_queryRunner h in
    match runInTransaction (TransactionManager (ds_ref dataSource) qr)
            env (startTransaction dataSource level h) with
    | (Returned a, h') => (Returned a, emit (CommitTransaction qr) h')
    | (Thrown e, h') => (Thrown e, emit (RollbackTransaction qr) h')
    end.

(** ** The module [decorators/transactional.ts] *)

Definition getOrCreateTransactionContext (dataSource : DataSource)
  : Async nat :=
  λ _ h,
    match transactionContexts h !! ds_ref dataSource with
    | Some context => (Returned context, h)
    | None =>
        let context := next_storage h in
        (Returned context,
         {| transactionContexts :=
              <[ds_ref dataSource := context]> (transactionContexts h);
            next_storage := S context;
            next_queryRunner := next_queryRunner h;
            log := log h |})
    end.

Definition getSupportedIsolationLevel (dataSource : DataSource)
    (requestedLevel : option IsolationLevel) : option IsolationLevel :=
  match requestedLevel with
  | None => None
  | Some requested =>
      let dbType := options_type dataSource in
      if String.eqb dbType "sqlite" then
        if bool_decide (requested = READ_UNCOMMITTED)
           || bool_decide (requested = SERIALIZABLE)
        then Some requested
        else Some SERIALIZABLE
      else Some requested
  end.

(** The decorated class, as far as the decorator reads it:
    [target.constructor.name]. *)
Record Target : Type := {
  constructor_name : string;
}.

(** The receiver of a decorated method, read as [(this as any).dataSource]:
    the property may be missing. *)
Record Receiver : Type := {
  dataSource : option DataSource;
}.

Definition dataSource_not_found (target : Target) : JsError :=
  Error ("DataSource not found in " ++ constructor_name target
         ++ ". Make sure your service has a 'dataSource' property.").

(** The replacement [descriptor.value] installed by [Transactional(options)]
    on a method of [target]; [originalMethod] stands for
    [originalMethod.apply(this, args)]. *)
Definition Transactional {A} (options : TransactionalOptions)
    (target : Target) (this : Receiver) (originalMethod : Async A)
  : Async A :=
  match dataSource this with
  | None => throw (dataSource_not_found target)
  | Some dataSource =>
      context ← getOrCreateTransactionContext dataSource;
      existingContext ← getStore context;
      if bool_decide (is_Some existingContext)
         && bool_decide (propagation options ≠ Some REQUIRES_NEW)
      then originalMethod
      else
        let isolationLevel :=
          getSupportedIsolationLevel dataSource (isolation options) in
        let executeTransaction (manager : EntityManager) : Async A :=
          let contextData :=
            {| ctx_manager := manager; ctx_dataSource := dataSource |} in
          run context contextData originalMethod in
        match isolationLevel with
        | Some level =>
            transaction dataSource (Some level) executeTransaction
        | None => transaction dataSource None executeTransaction
        end
  end.

Definition getCurrentTransactionManager (dataSource : option DataSource)
  : Async (option EntityManager) :=
  match dataSource with
  | None => mret None
  | Some dataSource =>
      context ← getOrCreateTransactionContext dataSource;
      contextData ← getStore context;
      mret (ctx_manager <$> contextData)
  end.

(** [BaseTransactionalService.getManager].  With the property missing the
    read [this.dataSource.manager] is a property read of [undefined]. *)
Definition getManager (this : Receiver) : Async EntityManager :=
  current ← getCurrentTransactionManager (dataSource this);
  match current with
  | Some transactional => mret transactional
  | None =>
      match dataSource this with
      | Some dataSource => mret (manager dataSource)
      | None =>
          throw (TypeError
            "Cannot read properties of undefined (reading 'manager')")
      end
  end.

(** [BaseTransactionalService.getRepository] *)
Definition getRepository (this : Receiver) (entity : string)
  : Async Repository :=
  manager ← getManager this;
  mret {| repo_manager := manager; repo_entity := entity |}.

(** Modelled from the spec: [repository.save(row)] belongs to typeorm.
    Following section 6 of the specification, the row goes to the database
    through the accessor the repository is bound to. *)
Definition save (repository : Repository) (row : string) : Async unit :=
  λ _ h, (Returned tt, emit (Saved (repo_manager repository) row) h).

(** ** Service methods

    The bodies of service methods, as the example services write them:
    rows saved through [this.getRepository(E)], errors thrown, calls of
    decorated methods of other services, and [try]/[catch]. *)
Inductive Body : Type :=
| Skip
| Seq (first second : Body)
| SaveRow (entity row : string)
| ThrowError (e : JsError)
| Call (options : TransactionalOptions) (target : Target)
    (callee : Receiver) (method : Body)
| TryCatch (body handler : Body).

(** Running a body with receiver [this].  A [Call] goes through the
    descriptor the decorator installed, with the callee as receiver. *)
Fixpoint exec (this : Receiver) (b : Body) : Async unit :=
  match b with
  | Skip => mret tt
  | Seq first second => exec this first;; exec this second
  | SaveRow entity row =>
      repository ← getRepository this entity;
      save repository row
  | ThrowError e => throw e
  | Call options target callee method =>
      Transactional options target callee (exec callee method)
  | TryCatch body handler =>
      try_catch (exec this body) (λ _, exec this handler)
  end.

(** The number of decorated calls a body contains, at any depth. *)
Fixpoint count_calls (b : Body) : nat :=
  match b with
  | Skip | SaveRow _ _ | ThrowError _ => 0
  | Seq first second => count_calls first + count_calls second
  | Call _ _ _ method => S (count_calls method)
  | TryCatch body handler => count_calls body + count_calls handler
  end.

(** No [throw] statement occurs in the body, at any depth. *)
Fixpoint throws_nothing (b : Body) : Prop :=
  match b with
  | Skip | SaveRow _ _ => True
  | ThrowError _ => False
  | Seq first second => throws_nothing first ∧ throws_nothing second
  | Call _ _ _ method => throws_nothing method
  | TryCatch body handler => throws_nothing body ∧ throws_nothing handler
  end.

(** Every decorated call in the body, at any depth, is on a service of
    [ds] and does not ask for [REQUIRES_NEW]. *)
Fixpoint all_required_on (ds : DataSource) (b : Body) : Prop :=
  match b with
  | Skip | SaveRow _ _ | ThrowError _ => True
  | Seq first second => all_required_on ds first ∧ all_required_on ds second
  | Call options _ callee method =>
      propagation options ≠ Some REQUIRES_NEW
      ∧ dataSource callee = Some ds
      ∧ all_required_on ds method
  | TryCatch body handler =>
      all_required_on ds body ∧ all_required_on ds handler
  end.

(** ** The example services *)

Module Examples.

Definition testDataSource : DataSource :=
  {| ds_ref := 0; options_type := "sqlite" |}.

Definition service : Receiver := {| dataSource := Some testDataSource |}.

Definition OrganizationService : Target :=
  {| constructor_name := "OrganizationService" |}.
Definition UserService : Target := {| constructor_name := "UserService" |}.
Definition SignupService : Target :=
  {| constructor_name := "SignupService" |}.

Definition createOrganization (organizationId : string) : Body :=
  Call default_options OrganizationService service
    (SaveRow "Organization" organizationId).

Definition createUser (userId : string) : Body :=
  Call default_options UserService service (SaveRow "User" userId).

Definition createUserWithRequiresNew (userId : string) : Body :=
  Call {| isolation := None; propagation := Some REQUIRES_NEW |}
    UserService service (createUser userId).

Definition performSignup (organizationId userId : string) : Body :=
  Seq (createOrganization organizationId)
    (Seq (createUser userId) (SaveRow "User" userId)).

Definition signup (organizationId userId : string) : Body :=
  Call default_options SignupService service
    (performSignup organizationId userId).

(** [createUser] replaced by a mock that rejects, as the tests do. *)
Definition failing_createUser : Body :=
  ThrowError (Error "User creation failed").

Definition signupWithoutTransaction (organizationId userId : string)
  : Body :=
  performSignup organizationId userId.

Definition signupWithSeparateTransactions (organizationId userId : string)
  : Body :=
  Call default_options SignupService service
    (Seq (createOrganization organizationId)
       (Seq (createUserWithRequiresNew userId) (SaveRow "User" userId))).

End Examples.

Close Scope string_scope.

(** ** Vocabulary of the properties *)

(** Isolation levels from weakest to strongest. *)
Definition strength (level : IsolationLevel) : nat :=
  match level with
  | READ_UNCOMMITTED => 0
  | READ_COMMITTED => 1
  | REPEATABLE_READ => 2
  | SERIALIZABLE => 3
  end.

(** The frame active for [ds] in a call chain: what the storage registered
    for [ds] holds in the chain's context. *)
Definition activeFrame (env : AsyncContext) (h : Heap) (ds : DataSource)
  : option TransactionContextData :=
  match transactionContexts h !! ds_ref ds with
  | Some context => env !! context
  | None => None
  end.

(** The states the module can be in: registered storages were allocated
    and are pairwise distinct, a frame lives in the storage registered for
    the [DataSource] it names, and the manager of a frame belongs to a
    query runner that was created. *)
Record consistent (env : AsyncContext) (h : Heap) : Prop := {
  registry_allocated :
    ∀ d context, transactionContexts h !! d = Some context →
      context < next_storage h;
  registry_injective :
    ∀ d1 d2 context,
      transactionContexts h !! d1 = Some context →
      transactionContexts h !! d2 = Some context → d1 = d2;
  frames_registered :
    ∀ context frame, env !! context = Some frame →
      transactionContexts h !! ds_ref (ctx_dataSource frame) = Some context;
  frames_transactional :
    ∀ context frame, env !! context = Some frame →
      ∃ qr, ctx_manager frame
            = TransactionManager (ds_ref (ctx_dataSource frame)) qr
            ∧ qr < next_queryRunner h;
}.

Definition is_transaction_event (ev : Event) : bool :=
  match ev with
  | Saved _ _ => false
  | _ => true
  end.

(** The transaction boundaries among the events. *)
Definition boundaries (events : list Event) : list Event :=
  List.filter is_transaction_event events.

(** The managers rows were saved through. *)
Definition saved_via (events : list Event) : list EntityManager :=
  omap (λ ev, match ev with Saved m _ => Some m | _ => None end) events.

(** The query runners the events open, commit or roll back. *)
Definition runners (events : list Event) : list nat :=
  omap (λ ev, match ev with
              | StartTransaction _ _ qr
              | CommitTransaction qr
              | RollbackTransaction qr => Some qr
              | Saved _ _ => None
              end) events.

(** The wrapper joins: whatever the method, the call is the method itself,
    run in the caller's context on the caller's heap. *)
Definition joins (options : TransactionalOptions) (target : Target)
    (this : Receiver) (env : AsyncContext) (h : Heap) : Prop :=
  ∀ (A : Type) (originalMethod : Async A),
    Transactional options target this originalMethod env h
    = originalMethod env h.

(** The wrapper starts a new transaction on [ds]: whatever the method, the
    call is [ds.transaction] around the method run with a frame of its own
    in the storage of [ds]. *)
Definition starts_new (options : TransactionalOptions) (target : Target)
    (this : Receiver) (ds : DataSource) (env : AsyncContext) (h : Heap)
  : Prop :=
  ∀ (A : Type) (originalMethod : Async A),
    Transactional options target this originalMethod env h
    = (context ← getOrCreateTransactionContext ds;
       transaction ds (getSupportedIsolationLevel ds (isolation options))
         (λ m, run context {| ctx_manager := m; ctx_dataSource := ds |}
                 originalMethod)) env h.

(** The frame [executeTransaction] builds for the manager of runner [qr]. *)
Definition frame_of (ds : DataSource) (qr : nat) : TransactionContextData :=
  {| ctx_manager := TransactionManager (ds_ref ds) qr; ctx_dataSource := ds |}.

(** The heap once the storage of [ds] exists, and that storage. *)
Definition registered (ds : DataSource) (h : Heap) : Heap :=
  (getOrCreateTransactionContext ds ∅ h).2.

Definition storage_of (ds : DataSource) (h : Heap) : nat :=
  match transactionContexts h !! ds_ref ds with
  | Some context => context
  | None => next_storage h
  end.

(** [h'] differs from [h] by things that were added: registered storages
    stay, counters grow, the trace is extended, and the transaction
    boundaries added are on runners created in between. *)
Record extends (h h' : Heap) : Prop := {
  ext_registry :
    ∀ d context, transactionContexts h !! d = Some context →
      transactionContexts h' !! d = Some context;
  ext_storage : (next_storage h ≤ next_storage h')%nat;
  ext_runner : (next_queryRunner h ≤ next_queryRunner h')%nat;
  ext_log :
    ∃ events, log h' = log h ++ events
      ∧ Forall (λ qr, (next_queryRunner h ≤ qr < next_queryRunner h')%nat)
          (runners events);
}.

(** What a new transaction around the method amounts to: the method runs
    with a frame on a runner of its own in the storage of [ds], and the
    runner commits or rolls back by the outcome. *)
Definition new_transaction {A} (options : TransactionalOptions)
    (ds : DataSource) (originalMethod : Async A) (env : AsyncContext)
    (h : Heap) : Outcome A * Heap :=
  let qr := next_queryRunner h in
  let level := getSupportedIsolationLevel ds (isolation options) in
  match originalMethod (<[storage_of ds h := frame_of ds qr]> env)
          (startTransaction ds level (registered ds h)) with
  | (Returned a, h') => (Returned a, emit (CommitTransaction qr) h')
  | (Thrown e, h') => (Thrown e, emit (RollbackTransaction qr) h')
  end.

(** The conditions under which the specification has a call join. *)
Definition joinable (options : TransactionalOptions) (ds : DataSource)
    (env : AsyncContext) (h : Heap) : Prop :=
  ∃ frame, activeFrame env h ds = Some frame
    ∧ ds_ref (ctx_dataSource frame) = ds_ref ds
    ∧ propagation options ≠ Some REQUIRES_NEW.

(** The manager [getManager] is to resolve for a service of [ds]. *)
Definition resolved (env : AsyncContext) (h : Heap) (ds : DataSource)
  : EntityManager :=
  match activeFrame env h ds with
  | Some frame => ctx_manager frame
  | None => manager ds
  end.

(** The heap with further events in the trace and nothing else changed. *)
Definition logged (events : list Event) (h : Heap) : Heap :=
  {| transactionContexts := transactionContexts h;
     next_storage := next_storage h;
     next_queryRunner := next_queryRunner h;
     log := log h ++ events |}.

(** A computation that only adds to the heap, in every context. *)
Definition extending {A} (op : Async A) : Prop :=
  ∀ env h, extends h (op env h).2.

(** A computation that leaves the module in a state it can be in. *)
Definition preserves_consistency {A} (op : Async A) : Prop :=
  ∀ env h, consistent env h → consistent env (op env h).2.

(** [n] calls in a row of the decorated method [method] of [callee]. *)
Fixpoint calls_in_sequence (options : TransactionalOptions) (target : Target)
    (callee : Receiver) (method : Body) (n : nat) : Body :=
  match n with
  | 0 => Skip
  | S k =>
      Seq (Call options target callee method)
        (calls_in_sequence options target callee method k)
  end.

(** ** The services of the examples, with their collaborators injected

    [SignupService] receives an [OrganizationService] and a [UserService]
    through its constructor and calls their decorated methods; the tests
    replace some of these methods by mocks.  A method is the body it runs,
    given its arguments; of the entity it saves, the row keeps the
    identifier. *)

Module Services.

(** The methods [SignupService] calls on its collaborators. *)
Record Collaborators : Type := {
  createOrganization : string → Body;
  createUser : string → Body;
  createUserWithRequiresNew : string → Body;
}.





(** [SignupService.performSignup], not decorated. *)
Definition performSignup (services : Collaborators)
    (organizationId userId : string) : Body :=
  Seq (createOrganization services organizationId)
    (Seq (createUser services userId) (SaveRow "User" userId)).

(** [SignupService.signup], decorated [@Transactional()], called on the
    service [this]. *)
Definition signup (services : Collaborators) (this : Receiver)
    (organizationId userId : string) : Body :=
  Call default_options Examples.SignupService this
    (performSignup services organizationId userId).

(** [SignupService.signupWithoutTransaction], not decorated. *)
Definition signupWithoutTransaction (services : Collaborators)
    (organizationId userId : string) : Body :=
  performSignup services organizationId userId.

(** [SignupService.signupWithSeparateTransactions], decorated
    [@Transactional()], called on the service [this]. *)
Definition signupWithSeparateTransactions (services : Collaborators)
    (this : Receiver) (organizationId userId : string) : Body :=
  Call default_options Examples.SignupService this
    (Seq (createOrganization services organizationId)
       (Seq (createUserWithRequiresNew services userId)
          (SaveRow "User" userId))).

End Services.

(** ** Vocabulary of the traces *)

(** The rows a body saves, in program order, when nothing in it throws. *)
Fixpoint rows (b : Body) : list string :=
  match b with
  | Skip | ThrowError _ => []
  | Seq first second => rows first ++ rows second
  | SaveRow _ row => [row]
  | Call _ _ _ method => rows method
  | TryCatch body _ => rows body
  end.

(** The receivers of the decorated calls of a body, at any depth. *)
Fixpoint callees (b : Body) : list Receiver :=
  match b with
  | Skip | SaveRow _ _ | ThrowError _ => []
  | Seq first second => callees first ++ callees second
  | Call _ _ callee method => callee :: callees method
  | TryCatch body handler => callees body ++ callees handler
  end.

(** Reading a trace with the runners of the open transactions at hand,
    innermost first: a start opens its runner, a commit or a rollback
    must be on the innermost open runner and closes it.  The result is
    the runners left open, or nothing when an event is out of place. *)
Fixpoint closes (open : list nat) (events : list Event)
  : option (list nat) :=
  match events with
  | [] => Some open
  | StartTransaction _ _ qr :: rest => closes (qr :: open) rest
  | CommitTransaction qr :: rest | RollbackTransaction qr :: rest =>
      match open with
      | innermost :: outer =>
          if bool_decide (qr = innermost) then closes outer rest else None
      | [] => None
      end
  | Saved _ _ :: rest => closes open rest
  end.

(** Every transaction started in the trace is closed in it, once, and
    after the ones started inside it. *)
Definition well_bracketed (events : list Event) : Prop :=
  closes [] events = Some [].

(** The runners on which the trace starts a transaction, in order. *)
Definition started (events : list Event) : list nat :=
  omap (λ ev, match ev with
              | StartTransaction _ _ qr => Some qr
              | _ => None
              end) events.

(** The isolation levels at which the trace starts transactions. *)
Definition levels (events : list Event) : list (option IsolationLevel) :=
  omap (λ ev, match ev with
              | StartTransaction _ level _ => Some level
              | _ => None
              end) events.

(** What sqlite can be asked for: its default, or one of its two levels. *)
Definition sqlite_level (level : option IsolationLevel) : Prop :=
  level = None ∨ level = Some READ_UNCOMMITTED ∨ level = Some SERIALIZABLE.

(** The heap after a transaction on [ds] from [h]: the storage of [ds]
    exists, the transaction was started on the next runner, [events]
    happened inside it and [closing] ended it. *)
Definition transacted (ds : DataSource) (level : option IsolationLevel)
    (events : list Event) (closing : Event) (h : Heap) : Heap :=
  emit closing (logged events (startTransaction ds level (registered ds h))).

(** What a run amounts to: how it ended, the events it added and the
    number of the next runner. *)
Record Run : Type := {
  ran_outcome : Outcome unit;
  ran_events : list Event;
  ran_next : nat;
}.

(** A reading of a body that knows neither storages nor execution
    contexts, for services that are all on [ds]: the manager in force,
    if any, is handed down.  A decorated call runs its method under the
    manager in force when there is one and it does not ask for
    REQUIRES_NEW; otherwise it runs it under the manager of the next
    runner, between the start of a transaction on that runner and its
    commit or, when the method throws, its rollback.  A row is saved
    through the manager in force, or through the manager of [ds] itself
    when there is none. *)
Fixpoint reference (ds : DataSource) (current : option EntityManager)
    (next : nat) (b : Body) : Run :=
  match b with
  | Skip =>
      {| ran_outcome := Returned tt; ran_events := []; ran_next := next |}
  | Seq first second =>
      let ran := reference ds current next first in
      match ran_outcome ran with
      | Returned _ =>
          let then_ := reference ds current (ran_next ran) second in
          {| ran_outcome := ran_outcome then_;
             ran_events := ran_events ran ++ ran_events then_;
             ran_next := ran_next then_ |}
      | Thrown _ => ran
      end
  | SaveRow _ row =>
      {| ran_outcome := Returned tt;
         ran_events := [Saved (default (manager ds) current) row];
         ran_next := next |}
  | ThrowError e =>
      {| ran_outcome := Thrown e; ran_events := []; ran_next := next |}
  | Call options _ _ method =>
      if bool_decide (is_Some current)
         && bool_decide (propagation options ≠ Some REQUIRES_NEW)
      then reference ds current next method
      else
        let level := getSupportedIsolationLevel ds (isolation options) in
        let ran :=
          reference ds (Some (TransactionManager (ds_ref ds) next))
            (S next) method in
        {| ran_outcome := ran_outcome ran;
           ran_events :=
             [StartTransaction (ds_ref ds) level next] ++ ran_events ran
             ++ [match ran_outcome ran with
                 | Returned _ => CommitTransaction next
                 | Thrown _ => RollbackTransaction next
                 end];
           ran_next := ran_next ran |}
  | TryCatch body handler =>
      let ran := reference ds current next body in
      match ran_outcome ran with
      | Returned _ => ran
      | Thrown _ =>
          let then_ := reference ds current (ran_next ran) handler in
          {| ran_outcome := ran_outcome then_;
             ran_events := ran_events ran ++ ran_events then_;
             ran_next := ran_next then_ |}
      end
  end.

(** The events a computation adds to the trace, from a state. *)
Definition adds {A} (op : Async A) (env : AsyncContext) (h : Heap)
    (events : list Event) : Prop :=
  log (op env h).2 = log h ++ events.

(** A computation whose transactions are orderly, from every state: what
    it adds is well bracketed, and the runners it starts are the next
    ones, one after the other. *)
Definition orderly {A} (op : Async A) : Prop :=
  ∀ env h,
    (next_queryRunner h ≤ next_queryRunner (op env h).2)%nat
    ∧ ∃ events,
        adds op env h events
        ∧ well_bracketed events
        ∧ started events
          = seq (next_queryRunner h)
              (next_queryRunner (op env h).2 - next_queryRunner h).

(** A computation that starts transactions at levels sqlite has only. *)
Definition within_sqlite {A} (op : Async A) : Prop :=
  ∀ env h, ∃ events,
    adds op env h events ∧ Forall sqlite_level (levels events).

(** ** The context registry *)

Section Registry.
Context (ds : DataSource) (env : AsyncContext) (h : Heap).

Lemma getOrCreate_returns :
  getOrCreateTransactionContext ds env h
  = (Returned (storage_of ds h), registered ds h).
Proof.
  unfold getOrCreateTransactionContext, storage_of, registered.
  unfold getOrCreateTransactionContext.
  by destruct (transactionContexts h !! ds_ref ds).
Qed.

Lemma registered_known context :
  transactionContexts h !! ds_ref ds = Some context →
  registered ds h = h ∧ storage_of ds h = context.
Proof.
  intros Hc. unfold registered, storage_of, getOrCreateTransactionContext.
  by rewrite Hc.
Qed.

Lemma registered_lookup :
  transactionContexts (registered ds h) !! ds_ref ds
  = Some (storage_of ds h).
Proof.
  unfold registered, storage_of, getOrCreateTransactionContext.
  destruct (transactionContexts h !! ds_ref ds) eqn:Hc; simpl; [done|].
  apply lookup_insert_eq.
Qed.

Lemma registered_log : log (registered ds h) = log h.
Proof.
  unfold registered, getOrCreateTransactionContext.
  by destruct (transactionContexts h !! ds_ref ds).
Qed.

Lemma registered_runner :
  next_queryRunner (registered ds h) = next_queryRunner h.
Proof.
  unfold registered, getOrCreateTransactionContext.
  by destruct (transactionContexts h !! ds_ref ds).
Qed.

Lemma registered_consistent :
  consistent env h → consistent env (registered ds h).
Proof.
  intros [Ha Hi Hf Ht].
  unfold registered, getOrCreateTransactionContext.
  destruct (transactionContexts h !! ds_ref ds) eqn:Hc; [by split|].
  split; simpl.
  - intros d c. rewrite lookup_insert. case_decide.
    + intros [= <-]. lia.
    + intros Hd. apply Ha in Hd. lia.
  - intros d1 d2 c. rewrite !lookup_insert.
    repeat case_decide; subst; try done.
    + intros [= <-] Hd. apply Ha in Hd. lia.
    + intros Hd [= <-]. apply Ha in Hd. lia.
    + apply Hi.
  - intros c f Hcf. rewrite lookup_insert_ne; [by apply Hf|].
    intros Heq. apply Hf in Hcf. congruence.
  - done.
Qed.

Lemma storage_not_active :
  consistent env h →
  transactionContexts h !! ds_ref ds = None →
  env !! storage_of ds h = None.
Proof.
  intros [Ha _ Hf _] Hc. unfold storage_of. rewrite Hc.
  destruct (env !! next_storage h) as [f|] eqn:Hl; [|done].
  apply Hf, Ha in Hl. lia.
Qed.

Lemma activeFrame_storage :
  consistent env h → env !! storage_of ds h = activeFrame env h ds.
Proof.
  intros Hc. unfold activeFrame.
  destruct (transactionContexts h !! ds_ref ds) eqn:Hr.
  - unfold storage_of. by rewrite Hr.
  - by apply storage_not_active.
Qed.

End Registry.

(** ** The wrapper, case by case *)

Section Wrapper.
Context {A : Type} (options : TransactionalOptions) (target : Target)
  (this : Receiver) (ds : DataSource) (originalMethod : Async A)
  (env : AsyncContext) (h : Heap).
Hypothesis Hds : dataSource this = Some ds.

Lemma Transactional_branches :
  Transactional options target this originalMethod env h
  = if bool_decide (is_Some (env !! storage_of ds h))
       && bool_decide (propagation options ≠ Some REQUIRES_NEW)
    then originalMethod env (registered ds h)
    else new_transaction options ds originalMethod env h.
Proof.
  unfold Transactional. rewrite Hds.
  unfold mbind, Async_bind. rewrite getOrCreate_returns.
  unfold getStore at 1.
  destruct (bool_decide _ && bool_decide _); [done|].
  unfold new_transaction.
  destruct (getSupportedIsolationLevel ds (isolation options)) eqn:Hl;
    unfold transaction, run; by rewrite registered_runner.
Qed.

Lemma Transactional_join frame :
  consistent env h →
  activeFrame env h ds = Some frame →
  propagation options ≠ Some REQUIRES_NEW →
  Transactional options target this originalMethod env h
  = originalMethod env h.
Proof.
  intros Hc Hf Hp. rewrite Transactional_branches.
  rewrite activeFrame_storage, Hf by done.
  rewrite !bool_decide_eq_true_2 by eauto. simpl.
  unfold activeFrame in Hf.
  destruct (transactionContexts h !! ds_ref ds) eqn:Hr; [|done].
  by destruct (registered_known ds h n Hr) as [-> _].
Qed.

Lemma Transactional_start :
  consistent env h →
  activeFrame env h ds = None ∨ propagation options = Some REQUIRES_NEW →
  Transactional options target this originalMethod env h
  = new_transaction options ds originalMethod env h.
Proof.
  intros Hc Hn. rewrite Transactional_branches.
  rewrite activeFrame_storage by done.
  destruct Hn as [-> | ->].
  - by rewrite bool_decide_eq_false_2 by (by intros [? ?]).
  - rewrite (bool_decide_eq_false_2 (_ ≠ _)) by (by intros Hne; apply Hne).
    by rewrite andb_false_r.
Qed.

End Wrapper.

(** ** Isolation negotiation *)

(** C3. [getSupportedIsolationLevel] returns nothing when no level is
    requested; the requested level itself on every backend other than
    sqlite; on sqlite the requested level when it is READ UNCOMMITTED or
    SERIALIZABLE and SERIALIZABLE otherwise.  Being a total function into
    an optional level it raises nothing, and the level it returns is never
    weaker than the requested one. *)
Theorem getSupportedIsolationLevel_negotiates (ds : DataSource) :
  getSupportedIsolationLevel ds None = None
  ∧ ∀ requested : IsolationLevel,
      (options_type ds ≠ "sqlite"%string →
         getSupportedIsolationLevel ds (Some requested) = Some requested)
      ∧ (options_type ds = "sqlite"%string →
         requested = READ_UNCOMMITTED ∨ requested = SERIALIZABLE →
         getSupportedIsolationLevel ds (Some requested) = Some requested)
      ∧ (options_type ds = "sqlite"%string →
         requested ≠ READ_UNCOMMITTED → requested ≠ SERIALIZABLE →
         getSupportedIsolationLevel ds (Some requested) = Some SERIALIZABLE)
      ∧ ∃ effective,
          getSupportedIsolationLevel ds (Some requested) = Some effective
          ∧ strength requested ≤ strength effective.
Proof.
  split; [done|]. intros requested. unfold getSupportedIsolationLevel.
  destruct (String.eqb_spec (options_type ds) "sqlite") as [Hs | Hs].
  - split_and!.
    + done.
    + by intros _ [-> | ->].
    + intros _ H1 H2. by destruct requested.
    + destruct requested; simpl. all: try (eexists; split; [reflexivity|simpl; lia]).
  - split_and!; [done..|]. eexists; split; [done|lia].
Qed.

Lemma getSupportedIsolationLevel_negotiates_witness :
  getSupportedIsolationLevel Examples.testDataSource (Some REPEATABLE_READ)
  = Some SERIALIZABLE.
Proof.
  destruct (getSupportedIsolationLevel_negotiates Examples.testDataSource)
    as [_ Hall].
  destruct (Hall REPEATABLE_READ) as (_ & _ & Hfallback & _).
  apply Hfallback; [reflexivity | discriminate | discriminate].
Defined.

(** ** Configuration errors *)

(** C9. With the [dataSource] property missing on the receiver, the
    wrapper throws at once an error whose message contains the name of the
    decorated class.  The heap is the one it was called on: no storage was
    looked up or created, no transaction was started, and the method, on
    which the result does not depend, was not run, neither once nor
    again. *)
Theorem Transactional_without_dataSource {A} (options : TransactionalOptions)
    (target : Target) (this : Receiver) (originalMethod : Async A)
    (env : AsyncContext) (h : Heap) :
  dataSource this = None →
  ∃ message,
    Transactional options target this originalMethod env h
    = (Thrown (Error message), h)
    ∧ ∃ before after,
        message = (before ++ constructor_name target ++ after)%string.
Proof.
  intros Hnone. unfold Transactional. rewrite Hnone.
  eexists. split; [reflexivity|]. eauto.
Qed.

Lemma Transactional_without_dataSource_witness :
  ∃ message,
    Transactional default_options Examples.SignupService
      {| dataSource := None |}
      (exec Examples.service (Examples.signup "org" "user")) ∅ empty_heap
    = (Thrown (Error message), empty_heap)
    ∧ ∃ before after,
        message = (before ++ "SignupService" ++ after)%string.
Proof.
  apply (Transactional_without_dataSource default_options
           Examples.SignupService {| dataSource := None |}).
  reflexivity.
Defined.

(** C10. Called without a [DataSource], [getCurrentTransactionManager]
    returns [null]: it throws nothing and leaves the heap as it was, so no
    storage was created, and the answer is the same in every execution
    context, whatever frames are active in it. *)
Theorem getCurrentTransactionManager_without_dataSource
    (env : AsyncContext) (h : Heap) :
  getCurrentTransactionManager None env h = (Returned None, h).
Proof. reflexivity. Qed.

(** ** Resolving the current manager *)

Lemma getCurrentTransactionManager_lookup (ds : DataSource)
    (env : AsyncContext) (h : Heap) :
  getCurrentTransactionManager (Some ds) env h
  = (Returned (ctx_manager <$> env !! storage_of ds h), registered ds h).
Proof.
  unfold getCurrentTransactionManager, mbind, Async_bind.
  by rewrite getOrCreate_returns.
Qed.

Lemma consistent_empty : consistent ∅ empty_heap.
Proof. split; intros *; simpl; by rewrite ?lookup_empty. Qed.

Lemma consistent_emit (ev : Event) (env : AsyncContext) (h : Heap) :
  consistent env h → consistent env (emit ev h).
Proof. intros [Ha Hi Hf Ht]. by split. Qed.

(** The state in which a new transaction runs its method. *)
Lemma consistent_started (ds : DataSource) (env : AsyncContext) (h : Heap)
    (level : option IsolationLevel) :
  consistent env h →
  consistent (<[storage_of ds h := frame_of ds (next_queryRunner h)]> env)
    (startTransaction ds level (registered ds h)).
Proof.
  intros Hc. pose proof (registered_lookup ds h) as Hl.
  destruct (registered_consistent ds env h Hc) as [Ha Hi Hf Ht].
  split; simpl; try done.
  - intros context frame. rewrite lookup_insert. case_decide.
    + by intros [= <-]; subst.
    + apply Hf.
  - intros context frame. rewrite lookup_insert. case_decide.
    + intros [= <-]. rewrite registered_runner. eauto.
    + intros Hl'. destruct (Ht _ _ Hl') as (qr & ? & ?). eauto.
Qed.

(** C6. Two [DataSource]s with different references get different
    storages, which both stay registered; and what the storage of [A]
    holds has no bearing on [B]: in two execution contexts that differ
    only in the storage of [A], such as one with a frame active for [A]
    and one without, [getCurrentTransactionManager(B)] gives the same
    answer and leaves the same heap. *)
Theorem dataSources_are_independent (A B : DataSource) :
  ds_ref A ≠ ds_ref B →
  (∀ env h, consistent env h →
     ∃ contextA hA contextB hB,
       getOrCreateTransactionContext A env h = (Returned contextA, hA)
       ∧ getOrCreateTransactionContext B env hA = (Returned contextB, hB)
       ∧ contextA ≠ contextB
       ∧ transactionContexts hB !! ds_ref A = Some contextA
       ∧ transactionContexts hB !! ds_ref B = Some contextB)
  ∧ (∀ env1 env2 h contextA,
       consistent env1 h →
       transactionContexts h !! ds_ref A = Some contextA →
       (∀ context, context ≠ contextA → env1 !! context = env2 !! context) →
       getCurrentTransactionManager (Some B) env1 h
       = getCurrentTransactionManager (Some B) env2 h).
Proof.
  intros Hne. split.
  - intros env h Hc.
    exists (storage_of A h), (registered A h),
      (storage_of B (registered A h)), (registered B (registered A h)).
    rewrite !getOrCreate_returns.
    pose proof (registered_consistent A env h Hc) as HcA.
    pose proof (registered_lookup A h) as HA.
    pose proof (registered_lookup B (registered A h)) as HB.
    assert (storage_of A h ≠ storage_of B (registered A h)) as Hdiff.
    { unfold storage_of at 2.
      destruct (transactionContexts (registered A h) !! ds_ref B) eqn:Hr.
      - intros Heq. apply Hne.
        apply (registry_injective _ _ HcA _ _ (storage_of A h)); congruence.
      - apply (registry_allocated _ _ HcA) in HA. lia. }
    split_and!; try done.
    unfold registered at 1, getOrCreateTransactionContext.
    destruct (transactionContexts (registered A h) !! ds_ref B); [done|].
    simpl. by rewrite lookup_insert_ne.
  - intros env1 env2 h contextA Hc HA Hagree.
    rewrite !getCurrentTransactionManager_lookup.
    rewrite Hagree; [done|].
    unfold storage_of.
    destruct (transactionContexts h !! ds_ref B) eqn:Hr.
    + intros ->. apply Hne.
      by apply (registry_injective _ _ Hc _ _ contextA).
    + apply (registry_allocated _ _ Hc) in HA. lia.
Qed.

Lemma dataSources_are_independent_witness :
  let A := {| ds_ref := 0; options_type := "sqlite" |} in
  let B := {| ds_ref := 1; options_type := "postgres" |} in
  let h := startTransaction A None (registered A empty_heap) in
  getCurrentTransactionManager (Some B) (<[0 := frame_of A 0]> ∅) h
  = getCurrentTransactionManager (Some B) ∅ h.
Proof.
  intros A B h.
  refine (proj2 (dataSources_are_independent A B _) _ _ h 0 _ _ _).
  - simpl. lia.
  - apply (consistent_started A ∅ empty_heap None consistent_empty).
  - reflexivity.
  - intros context Hother. by rewrite lookup_insert_ne.
Defined.

(** C7 as the code has it.  On a service of [ds], [getManager] never
    throws and returns the manager of the frame active for [ds], a
    manager bound to a transaction, when there is one and [ds.manager]
    otherwise; [getRepository] returns a repository on that manager.
    Nothing reaches the database, no runner is created and the frame
    active for [ds] is the same afterwards.  The heap is untouched when
    the storage of [ds] exists; on first use the storage is created and
    registered, which is the one change the lookup makes. *)
Theorem getManager_resolves (this : Receiver) (ds : DataSource)
    (env : AsyncContext) (h : Heap) :
  consistent env h →
  dataSource this = Some ds →
  let h' := registered ds h in
  getManager this env h = (Returned (resolved env h ds), h')
  ∧ (∀ entity,
       getRepository this entity env h
       = (Returned {| repo_manager := resolved env h ds;
                      repo_entity := entity |}, h'))
  ∧ (∀ frame, activeFrame env h ds = Some frame →
       ∃ qr, resolved env h ds = TransactionManager (ds_ref ds) qr)
  ∧ (activeFrame env h ds = None → resolved env h ds = manager ds)
  ∧ log h' = log h
  ∧ next_queryRunner h' = next_queryRunner h
  ∧ activeFrame env h' ds = activeFrame env h ds
  ∧ (is_Some (transactionContexts h !! ds_ref ds) → h' = h)
  ∧ (transactionContexts h !! ds_ref ds = None →
       transactionContexts h'
       = <[ds_ref ds := next_storage h]> (transactionContexts h)
       ∧ next_storage h' = S (next_storage h)).
Proof.
  intros Hc Hds h'.
  assert (getManager this env h = (Returned (resolved env h ds), h')) as Hm.
  { unfold getManager, mbind, Async_bind. rewrite Hds.
    rewrite getCurrentTransactionManager_lookup.
    rewrite activeFrame_storage by done. unfold resolved.
    by destruct (activeFrame env h ds). }
  split_and!.
  - done.
  - intros entity. unfold getRepository, mbind, Async_bind. by rewrite Hm.
  - intros frame Hf. unfold resolved. rewrite Hf.
    unfold activeFrame in Hf.
    destruct (transactionContexts h !! ds_ref ds) as [c|] eqn:Hr; [|done].
    destruct (frames_transactional _ _ Hc _ _ Hf) as (qr & -> & _).
    exists qr. f_equal.
    apply (registry_injective _ _ Hc _ _ c); [|done].
    by apply (frames_registered _ _ Hc).
  - intros Hn. unfold resolved. by rewrite Hn.
  - apply registered_log.
  - apply registered_runner.
  - subst h'. rewrite <- !activeFrame_storage
      by auto using registered_consistent.
    unfold storage_of at 1. by rewrite registered_lookup.
  - intros [c Hr]. by destruct (registered_known ds h c Hr).
  - intros Hr. subst h'. unfold registered, getOrCreateTransactionContext.
    by rewrite Hr.
Qed.

Lemma getManager_resolves_witness :
  getManager Examples.service
    (<[0 := frame_of Examples.testDataSource 0]> ∅)
    (startTransaction Examples.testDataSource None
       (registered Examples.testDataSource empty_heap))
  = (Returned (TransactionManager 0 0),
     startTransaction Examples.testDataSource None
       (registered Examples.testDataSource empty_heap)).
Proof.
  refine (proj1 (getManager_resolves Examples.service
                   Examples.testDataSource _ _ _ _)).
  - apply (consistent_started Examples.testDataSource ∅ empty_heap None
             consistent_empty).
  - reflexivity.
Defined.

(** C7 as written, with no side effect at all, fails on a [DataSource]
    that is used for the first time: the lookup registers its storage. *)
Lemma getManager_registers_storage :
  consistent ∅ empty_heap
  ∧ (getManager Examples.service ∅ empty_heap).1
    = Returned (manager Examples.testDataSource)
  ∧ (getManager Examples.service ∅ empty_heap).2 ≠ empty_heap
  ∧ transactionContexts (getManager Examples.service ∅ empty_heap).2 !! 0
    = Some 0.
Proof.
  split_and!; [apply consistent_empty | done | | done].
  intros Heq. apply (f_equal next_storage) in Heq. discriminate Heq.
Qed.

(** ** Join or start *)

(** C4. On a service of [ds], in a state the module can be in, the
    wrapper joins, being then the method itself run in the caller's
    context on the caller's heap, exactly when a frame is active for
    [ds], that frame names [ds] and the propagation is not REQUIRES_NEW;
    in every other case it is [ds.transaction] around the method run with
    a new frame. *)
Theorem Transactional_joins_iff (options : TransactionalOptions)
    (target : Target) (this : Receiver) (ds : DataSource)
    (env : AsyncContext) (h : Heap) :
  consistent env h →
  dataSource this = Some ds →
  (joins options target this env h ↔ joinable options ds env h)
  ∧ (¬ joinable options ds env h → starts_new options target this ds env h).
Proof.
  intros Hc Hds.
  assert (joinable options ds env h
          ∨ (activeFrame env h ds = None
             ∨ propagation options = Some REQUIRES_NEW)) as Hcases.
  { destruct (decide (propagation options = Some REQUIRES_NEW));
      [by right; right|].
    destruct (activeFrame env h ds) as [frame|] eqn:Hf; [|by right; left].
    left. exists frame. split_and!; try done.
    unfold activeFrame in Hf.
    destruct (transactionContexts h !! ds_ref ds) as [c|] eqn:Hr; [|done].
    apply (registry_injective _ _ Hc _ _ c); [|done].
    by apply (frames_registered _ _ Hc). }
  split; [split|].
  - intros Hj. destruct Hcases as [|Hnew]; [done|]. exfalso.
    specialize (Hj unit (mret tt)).
    rewrite (Transactional_start _ _ _ ds) in Hj by done.
    apply (f_equal (λ r, next_queryRunner r.2)) in Hj.
    unfold new_transaction in Hj. simpl in Hj.
    rewrite registered_runner in Hj. lia.
  - intros (frame & Hf & _ & Hp) A originalMethod.
    by apply (Transactional_join _ _ _ ds _ _ _ Hds frame).
  - intros Hnj A originalMethod. destruct Hcases as [|Hnew]; [done|].
    rewrite (Transactional_start _ _ _ ds) by done.
    unfold mbind, Async_bind. rewrite getOrCreate_returns.
    unfold transaction, run, new_transaction.
    by rewrite registered_runner.
Qed.

Lemma Transactional_joins_iff_witness :
  joins default_options Examples.UserService Examples.service
    (<[0 := frame_of Examples.testDataSource 0]> ∅)
    (startTransaction Examples.testDataSource None
       (registered Examples.testDataSource empty_heap)).
Proof.
  refine (proj2 (proj1 (Transactional_joins_iff default_options
    Examples.UserService Examples.service Examples.testDataSource _ _ _ _))
    _).
  - apply (consistent_started Examples.testDataSource ∅ empty_heap None
             consistent_empty).
  - reflexivity.
  - exists (frame_of Examples.testDataSource 0).
    split_and!; [reflexivity | reflexivity | discriminate].
Defined.

(** ** Heaps only grow *)

Lemma runners_app (xs ys : list Event) :
  runners (xs ++ ys) = runners xs ++ runners ys.
Proof. unfold runners. apply omap_app. Qed.

Lemma boundaries_app (xs ys : list Event) :
  boundaries (xs ++ ys) = boundaries xs ++ boundaries ys.
Proof. unfold boundaries. apply List.filter_app. Qed.

Lemma saved_via_app (xs ys : list Event) :
  saved_via (xs ++ ys) = saved_via xs ++ saved_via ys.
Proof. unfold saved_via. apply omap_app. Qed.

Lemma extends_refl (h : Heap) : extends h h.
Proof.
  split; try done. exists []. by rewrite app_nil_r.
Qed.

Lemma extends_trans (h1 h2 h3 : Heap) :
  extends h1 h2 → extends h2 h3 → extends h1 h3.
Proof.
  intros [Hr1 Hs1 Hq1 (ev1 & Hl1 & Hb1)] [Hr2 Hs2 Hq2 (ev2 & Hl2 & Hb2)].
  split; [auto | lia | lia |].
  exists (ev1 ++ ev2). split.
  - by rewrite Hl2, Hl1, app_assoc.
  - rewrite runners_app. apply Forall_app. split.
    + eapply Forall_impl; [exact Hb1|]. simpl. lia.
    + eapply Forall_impl; [exact Hb2|]. simpl. lia.
Qed.

Lemma extends_registered (ds : DataSource) (h : Heap) :
  extends h (registered ds h).
Proof.
  unfold registered, getOrCreateTransactionContext.
  destruct (transactionContexts h !! ds_ref ds) eqn:Hr;
    [apply extends_refl|].
  split; simpl; try lia.
  - intros d c Hd. rewrite lookup_insert_ne; [done|]. congruence.
  - exists []. by rewrite app_nil_r.
Qed.

Lemma extends_startTransaction (ds : DataSource)
    (level : option IsolationLevel) (h : Heap) :
  extends h (startTransaction ds level h).
Proof.
  split; simpl; try done; try lia.
  eexists. split; [done|]. constructor; [simpl; lia | constructor].
Qed.

Lemma extends_saved (m : EntityManager) (row : string) (h : Heap) :
  extends h (emit (Saved m row) h).
Proof.
  split; simpl; try done. eexists. split; [done|]. constructor.
Qed.

(** Closing runner [qr], opened on the way from [h] to [h']. *)
Lemma extends_closed (ev : Event) (qr : nat) (h h' : Heap) :
  runners [ev] = [qr] →
  (next_queryRunner h ≤ qr < next_queryRunner h') →
  extends h h' → extends h (emit ev h').
Proof.
  intros Hev Hqr [Hr Hs Hq (events & Hl & Hb)].
  split; simpl; try done.
  exists (events ++ [ev]). split.
  - by rewrite Hl, app_assoc.
  - rewrite runners_app, Hev. apply Forall_app. split; [done|].
    constructor; [exact Hqr | constructor].
Qed.

Lemma Transactional_extending {A} (options : TransactionalOptions)
    (target : Target) (this : Receiver) (originalMethod : Async A) :
  extending originalMethod →
  extending (Transactional options target this originalMethod).
Proof.
  intros Hop env h.
  destruct (dataSource this) as [ds|] eqn:Hds.
  - rewrite (Transactional_branches _ _ _ ds) by done.
    destruct (_ && _).
    + eapply extends_trans; [apply extends_registered | apply Hop].
    + unfold new_transaction.
      set (hs := startTransaction _ _ _).
      set (env' := <[_ := _]> env).
      pose proof (Hop env' hs) as Hext.
      assert (extends h hs) as Hhs.
      { eapply extends_trans;
          [apply extends_registered | apply extends_startTransaction]. }
      assert (next_queryRunner hs = S (next_queryRunner h)) as Hqr.
      { subst hs. simpl. by rewrite registered_runner. }
      destruct (originalMethod env' hs) as [[a|e] h'] eqn:Hrun;
        simpl in Hext |- *.
      * eapply (extends_closed _ (next_queryRunner h)); [done| |].
        -- pose proof (ext_runner _ _ Hext). lia.
        -- by eapply extends_trans.
      * eapply (extends_closed _ (next_queryRunner h)); [done| |].
        -- pose proof (ext_runner _ _ Hext). lia.
        -- by eapply extends_trans.
  - unfold Transactional. rewrite Hds. apply extends_refl.
Qed.

Lemma bind_extending {A B} (m : Async A) (k : A → Async B) :
  extending m → (∀ a, extending (k a)) → extending (m ≫= k).
Proof.
  intros Hm Hk env h. unfold mbind, Async_bind.
  pose proof (Hm env h) as H1.
  destruct (m env h) as [[a|e] h1]; simpl in *; [|done].
  eapply extends_trans; [exact H1 | apply Hk].
Qed.

Lemma getManager_extending (this : Receiver) : extending (getManager this).
Proof.
  intros env h. unfold getManager, mbind, Async_bind.
  destruct (dataSource this) as [ds|] eqn:Hds; [|apply extends_refl].
  rewrite getCurrentTransactionManager_lookup.
  destruct (env !! storage_of ds h); simpl; apply extends_registered.
Qed.

Lemma exec_extending (this : Receiver) (b : Body) : extending (exec this b).
Proof.
  revert this.
  induction b as [| first IH1 second IH2 | entity row | e
                 | options target callee method IH | body IH1 handler IH2];
    intros this; simpl.
  - intros env h. apply extends_refl.
  - apply bind_extending; auto.
  - apply bind_extending.
    + apply bind_extending; [apply getManager_extending|].
      intros m env h. apply extends_refl.
    + intros repository env h. apply extends_saved.
  - intros env h. apply extends_refl.
  - apply Transactional_extending, IH.
  - intros env h. unfold try_catch.
    pose proof (IH1 this env h) as H1.
    destruct (exec this body env h) as [[a|e] h1]; simpl in *; [done|].
    eapply extends_trans; [exact H1 | apply IH2].
Qed.

(** ** The state stays one the module can be in *)

Lemma consistent_extends (env env' : AsyncContext) (h h' : Heap) :
  consistent env h → consistent env' h' → extends h h' → consistent env h'.
Proof.
  intros [_ _ Hf Ht] [Ha Hi _ _] [Hr _ Hq _].
  split; [done | done | |].
  - intros c f Hl. by apply Hr, Hf.
  - intros c f Hl. destruct (Ht c f Hl) as (qr & ? & ?).
    exists qr. split; [done | lia].
Qed.

Lemma Transactional_preserves_consistency {A}
    (options : TransactionalOptions) (target : Target) (this : Receiver)
    (originalMethod : Async A) :
  extending originalMethod →
  preserves_consistency originalMethod →
  preserves_consistency (Transactional options target this originalMethod).
Proof.
  intros Hext Hop env h Hc.
  destruct (dataSource this) as [ds|] eqn:Hds.
  - rewrite (Transactional_branches _ _ _ ds) by done.
    destruct (_ && _).
    + by apply Hop, registered_consistent.
    + unfold new_transaction.
      set (level := getSupportedIsolationLevel _ _).
      pose proof (consistent_started ds env h level Hc) as Hs.
      set (hs := startTransaction _ _ _) in *.
      set (env' := <[_ := _]> env) in *.
      pose proof (Hop env' hs Hs) as Hc'.
      pose proof (Hext env' hs) as He'.
      assert (extends h hs) as Hhs.
      { eapply extends_trans;
          [apply extends_registered | apply extends_startTransaction]. }
      destruct (originalMethod env' hs) as [[a|e] h'] eqn:Hrun;
        simpl in Hc', He' |- *;
        apply consistent_emit;
        apply (consistent_extends env env' h h'); try done;
        by eapply extends_trans.
  - unfold Transactional. by rewrite Hds.
Qed.

Lemma getManager_preserves_consistency (this : Receiver) :
  preserves_consistency (getManager this).
Proof.
  intros env h Hc. unfold getManager, mbind, Async_bind.
  destruct (dataSource this) as [ds|] eqn:Hds; [|done].
  rewrite getCurrentTransactionManager_lookup.
  destruct (env !! storage_of ds h); simpl; by apply registered_consistent.
Qed.

Lemma exec_preserves_consistency (this : Receiver) (b : Body) :
  preserves_consistency (exec this b).
Proof.
  revert this.
  induction b as [| first IH1 second IH2 | entity row | e
                 | options target callee method IH | body IH1 handler IH2];
    intros this; simpl.
  - by intros env h Hc.
  - intros env h Hc. unfold mbind, Async_bind.
    pose proof (IH1 this env h Hc) as H1.
    destruct (exec this first env h) as [[a|e] h1]; simpl in *; [|done].
    by apply IH2.
  - intros env h Hc. unfold getRepository, mbind, Async_bind.
    pose proof (getManager_preserves_consistency this env h Hc) as H1.
    destruct (getManager this env h) as [[m|e] h1]; simpl in *; [|done].
    by apply consistent_emit.
  - by intros env h Hc.
  - apply Transactional_preserves_consistency; [apply exec_extending | apply IH].
  - intros env h Hc. unfold try_catch.
    pose proof (IH1 this env h Hc) as H1.
    destruct (exec this body env h) as [[a|e] h1]; simpl in *; [done|].
    by apply IH2.
Qed.

(** ** Calls that join *)

Lemma logged_nil (h : Heap) : logged [] h = h.
Proof. destruct h. unfold logged. simpl. by rewrite app_nil_r. Qed.

Lemma logged_app (xs ys : list Event) (h : Heap) :
  logged ys (logged xs h) = logged (xs ++ ys) h.
Proof. unfold logged. simpl. by rewrite app_assoc. Qed.

Lemma getManager_active (this : Receiver) (ds : DataSource)
    (env : AsyncContext) (h : Heap) (context : nat)
    (frame : TransactionContextData) :
  dataSource this = Some ds →
  transactionContexts h !! ds_ref ds = Some context →
  env !! context = Some frame →
  getManager this env h = (Returned (ctx_manager frame), h).
Proof.
  intros Hds Hr Hf. unfold getManager, mbind, Async_bind. rewrite Hds.
  rewrite getCurrentTransactionManager_lookup.
  destruct (registered_known ds h context Hr) as [-> ->].
  by rewrite Hf.
Qed.

(** With a frame active for [ds], a body whose calls are all REQUIRED
    calls on [ds] changes nothing but the trace, adds no transaction
    boundary to it, and saves every row through the manager of that
    frame. *)
Lemma exec_joined (ds : DataSource) (b : Body) :
  ∀ (this : Receiver) (env : AsyncContext) (h : Heap) (context : nat)
    (frame : TransactionContextData),
    dataSource this = Some ds →
    all_required_on ds b →
    transactionContexts h !! ds_ref ds = Some context →
    env !! context = Some frame →
    ∃ r events,
      exec this b env h = (r, logged events h)
      ∧ boundaries events = []
      ∧ Forall (eq (ctx_manager frame)) (saved_via events)
      ∧ (throws_nothing b → r = Returned tt).
Proof.
  induction b as [| first IH1 second IH2 | entity row | e
                 | options target callee method IH | body IH1 handler IH2];
    intros this env h context frame Hds Hall Hr Hf; simpl in Hall |- *.
  - exists (Returned tt), []. by rewrite logged_nil.
  - destruct Hall as [Hall1 Hall2].
    destruct (IH1 this env h context frame)
      as (r1 & ev1 & Hrun1 & Hb1 & Hs1 & Hq1); try done.
    unfold mbind, Async_bind. rewrite Hrun1.
    destruct r1 as [[]|e].
    + destruct (IH2 this env (logged ev1 h) context frame)
        as (r2 & ev2 & Hrun2 & Hb2 & Hs2 & Hq2); try done.
      exists r2, (ev1 ++ ev2). rewrite Hrun2, logged_app.
      split_and!; [done| | |].
      * by rewrite boundaries_app, Hb1, Hb2.
      * rewrite saved_via_app. by apply Forall_app.
      * intros [_ Hquiet]. auto.
    + exists (Thrown e), ev1. split_and!; try done.
      intros [Hquiet _]. auto.
  - unfold getRepository, mbind, Async_bind.
    rewrite (getManager_active this ds env h context frame) by done.
    exists (Returned tt), [Saved (ctx_manager frame) row].
    split_and!; [done | done | | done]. by repeat constructor.
  - exists (Thrown e), []. by rewrite logged_nil.
  - destruct Hall as (Hp & Hcallee & Hall).
    rewrite (Transactional_branches _ _ _ ds) by done.
    destruct (registered_known ds h context Hr) as [-> ->].
    rewrite Hf, !bool_decide_eq_true_2 by eauto. simpl.
    by apply (IH callee env h context frame).
  - destruct Hall as [Hall1 Hall2].
    destruct (IH1 this env h context frame)
      as (r1 & ev1 & Hrun1 & Hb1 & Hs1 & Hq1); try done.
    unfold try_catch. rewrite Hrun1.
    destruct r1 as [[]|e]; [by exists (Returned tt), ev1|].
    destruct (IH2 this env (logged ev1 h) context frame)
      as (r2 & ev2 & Hrun2 & Hb2 & Hs2 & Hq2); try done.
    exists r2, (ev1 ++ ev2). rewrite Hrun2, logged_app.
    split_and!; [done| | |].
    + by rewrite boundaries_app, Hb1, Hb2.
    + rewrite saved_via_app. by apply Forall_app.
    + intros [_ Hquiet]. auto.
Qed.

(** ** One transaction for a call and the calls that join it *)

(** C1. A wrapped call on a service of [ds] that starts a new transaction
    (no frame is active for [ds], or the propagation is REQUIRES_NEW) and
    whose body, with any number [N] of REQUIRED calls on [ds] nested in it
    at any depth, completes: the events it adds to the trace hold exactly
    one start and one commit, on the runner the call created, and every
    row is saved through the manager of that runner.  A nested call that
    joins changes nothing but the trace and adds no boundary to it. *)
Theorem joined_calls_share_one_transaction (N : nat)
    (options : TransactionalOptions) (target : Target) (this : Receiver)
    (ds : DataSource) (body : Body) (env : AsyncContext) (h h' : Heap) :
  consistent env h →
  dataSource this = Some ds →
  activeFrame env h ds = None ∨ propagation options = Some REQUIRES_NEW →
  all_required_on ds body →
  count_calls body = N →
  Transactional options target this (exec this body) env h
  = (Returned tt, h') →
  let qr := next_queryRunner h in
  let level := getSupportedIsolationLevel ds (isolation options) in
  (∃ events,
     log h' = log h ++ events
     ∧ boundaries events
       = [StartTransaction (ds_ref ds) level qr; CommitTransaction qr]
     ∧ Forall (eq (TransactionManager (ds_ref ds) qr)) (saved_via events))
  ∧ (∀ nested_options nested_target callee method env1 h1 frame,
       consistent env1 h1 →
       activeFrame env1 h1 ds = Some frame →
       propagation nested_options ≠ Some REQUIRES_NEW →
       dataSource callee = Some ds →
       all_required_on ds method →
       ∃ r events,
         Transactional nested_options nested_target callee
           (exec callee method) env1 h1
         = (r, logged events h1)
         ∧ boundaries events = []).
Proof.
  intros Hc Hds Hnew Hall _ Hrun qr level. split.
  - rewrite (Transactional_start _ _ _ ds) in Hrun by done.
    unfold new_transaction in Hrun. fold qr level in Hrun.
    destruct (exec_joined ds body this
                (<[storage_of ds h := frame_of ds qr]> env)
                (startTransaction ds level (registered ds h))
                (storage_of ds h) (frame_of ds qr))
      as (r & events & Hbody & Hb & Hs & _); try done.
    { simpl. apply registered_lookup. }
    { apply lookup_insert_eq. }
    rewrite Hbody in Hrun. destruct r as [[]|e]; [|done].
    injection Hrun as <-.
    exists ([StartTransaction (ds_ref ds) level qr] ++ events
            ++ [CommitTransaction qr]).
    split_and!.
    + simpl. rewrite registered_log, registered_runner, <- !app_assoc. done.
    + rewrite !boundaries_app, Hb. done.
    + rewrite !saved_via_app. simpl. by rewrite app_nil_r.
  - intros o t callee method env1 h1 frame Hc1 Hf Hp Hcallee Hall1.
    rewrite (Transactional_join _ _ _ ds _ _ _ Hcallee frame) by done.
    unfold activeFrame in Hf.
    destruct (transactionContexts h1 !! ds_ref ds) as [c|] eqn:Hr; [|done].
    destruct (exec_joined ds method callee env1 h1 c frame)
      as (r & events & Hbody & Hb & _ & _); try done.
    by exists r, events.
Qed.

Lemma joined_calls_share_one_transaction_witness :
  ∃ events,
    log (Transactional default_options Examples.SignupService
           Examples.service
           (exec Examples.service (Examples.performSignup "org" "user"))
           ∅ empty_heap).2
    = log empty_heap ++ events
    ∧ boundaries events = [StartTransaction 0 None 0; CommitTransaction 0]
    ∧ Forall (eq (TransactionManager 0 0)) (saved_via events).
Proof.
  refine (proj1 (joined_calls_share_one_transaction 2 default_options
    Examples.SignupService Examples.service Examples.testDataSource
    (Examples.performSignup "org" "user") ∅ empty_heap _ _ _ _ _ _ _)).
  - apply consistent_empty.
  - reflexivity.
  - left. reflexivity.
  - simpl. repeat split; discriminate.
  - reflexivity.
  - reflexivity.
Defined.

(** Calls in a row of a REQUIRED method on [ds] are REQUIRED calls on
    [ds], as many as asked for, and throw nothing when the method throws
    nothing. *)
Lemma calls_in_sequence_required (ds : DataSource)
    (options : TransactionalOptions) (target : Target) (callee : Receiver)
    (method : Body) (n : nat) :
  propagation options ≠ Some REQUIRES_NEW →
  dataSource callee = Some ds →
  all_required_on ds method →
  all_required_on ds (calls_in_sequence options target callee method n)
  ∧ count_calls (calls_in_sequence options target callee method n)
    = n * S (count_calls method)
  ∧ (throws_nothing method →
     throws_nothing (calls_in_sequence options target callee method n)).
Proof.
  intros Hp Hds Hall. induction n as [|n (IH1 & IH2 & IH3)]; simpl; [done|].
  split_and!; try done; [rewrite IH2; lia | auto].
Qed.

(** Whatever the number [n] of joined calls in its body, a call that
    starts a new transaction completes and adds one start and one commit
    to the trace. *)
Lemma any_number_of_joined_calls (n : nat) (options : TransactionalOptions)
    (target : Target) (this : Receiver) (ds : DataSource)
    (nested_options : TransactionalOptions) (nested_target : Target)
    (callee : Receiver) (method : Body) (env : AsyncContext) (h : Heap) :
  consistent env h →
  dataSource this = Some ds →
  activeFrame env h ds = None ∨ propagation options = Some REQUIRES_NEW →
  propagation nested_options ≠ Some REQUIRES_NEW →
  dataSource callee = Some ds →
  all_required_on ds method →
  throws_nothing method →
  ∃ events h',
    Transactional options target this
      (exec this
         (calls_in_sequence nested_options nested_target callee method n))
      env h
    = (Returned tt, h')
    ∧ log h' = log h ++ events
    ∧ boundaries events
      = [StartTransaction (ds_ref ds)
           (getSupportedIsolationLevel ds (isolation options))
           (next_queryRunner h);
         CommitTransaction (next_queryRunner h)].
Proof.
  intros Hc Hds Hnew Hp Hcallee Hall Hquiet.
  destruct (calls_in_sequence_required ds nested_options nested_target
              callee method n) as (Hall' & _ & Hquiet'); try done.
  rewrite (Transactional_start _ _ _ ds) by done. unfold new_transaction.
  destruct (exec_joined ds
              (calls_in_sequence nested_options nested_target callee
                 method n) this
              (<[storage_of ds h := frame_of ds (next_queryRunner h)]> env)
              (startTransaction ds
                 (getSupportedIsolationLevel ds (isolation options))
                 (registered ds h))
              (storage_of ds h) (frame_of ds (next_queryRunner h)))
    as (r & events & Hbody & Hb & _ & Hr); try done.
  { simpl. apply registered_lookup. }
  { apply lookup_insert_eq. }
  rewrite Hbody, (Hr (Hquiet' Hquiet)).
  exists ([StartTransaction (ds_ref ds)
             (getSupportedIsolationLevel ds (isolation options))
             (next_queryRunner h)]
          ++ events ++ [CommitTransaction (next_queryRunner h)]).
  eexists. split_and!; [reflexivity | |].
  - simpl. rewrite registered_log, registered_runner, <- !app_assoc. done.
  - rewrite !boundaries_app, Hb. done.
Qed.

(** ** Failures *)

(** C2. On a service of [ds]: when a call that starts a new transaction
    has its operation throw [e], the call throws that same [e], and all it
    adds to what the single run of the operation left is the rollback of
    the runner it created; a call that joins is its operation, so it adds
    no rollback and its error is the operation's; and when the body of a
    new transaction is made of REQUIRED calls on [ds] and throws [e], the
    events added hold one start and one rollback on the one runner,
    through whose manager every row was saved. *)
Theorem failure_rolls_back_and_rethrows (options : TransactionalOptions)
    (target : Target) (this : Receiver) (ds : DataSource)
    (env : AsyncContext) (h : Heap) :
  consistent env h →
  dataSource this = Some ds →
  let qr := next_queryRunner h in
  let level := getSupportedIsolationLevel ds (isolation options) in
  let inside := <[storage_of ds h := frame_of ds qr]> env in
  let started := startTransaction ds level (registered ds h) in
  (activeFrame env h ds = None ∨ propagation options = Some REQUIRES_NEW →
     ∀ (A : Type) (operation : Async A) e h2,
       operation inside started = (Thrown e, h2) →
       Transactional options target this operation env h
       = (Thrown e, emit (RollbackTransaction qr) h2))
  ∧ (joinable options ds env h →
     ∀ (A : Type) (operation : Async A),
       Transactional options target this operation env h = operation env h)
  ∧ (activeFrame env h ds = None ∨ propagation options = Some REQUIRES_NEW →
     ∀ body e h',
       all_required_on ds body →
       Transactional options target this (exec this body) env h
       = (Thrown e, h') →
       (∃ h2, exec this body inside started = (Thrown e, h2))
       ∧ ∃ events,
           log h' = log h ++ events
           ∧ boundaries events
             = [StartTransaction (ds_ref ds) level qr;
                RollbackTransaction qr]
           ∧ Forall (eq (TransactionManager (ds_ref ds) qr))
               (saved_via events)).
Proof.
  intros Hc Hds qr level inside started. split_and!.
  - intros Hnew A operation e h2 Hop.
    rewrite (Transactional_start _ _ _ ds) by done.
    unfold new_transaction. fold qr level inside started. by rewrite Hop.
  - intros (frame & Hf & _ & Hp) A operation.
    by apply (Transactional_join _ _ _ ds _ _ _ Hds frame).
  - intros Hnew body e h' Hall Hrun.
    rewrite (Transactional_start _ _ _ ds) in Hrun by done.
    unfold new_transaction in Hrun. fold qr level inside started in Hrun.
    destruct (exec_joined ds body this inside started
                (storage_of ds h) (frame_of ds qr))
      as (r & events & Hbody & Hb & Hs & _); try done.
    { simpl. apply registered_lookup. }
    { apply lookup_insert_eq. }
    rewrite Hbody in Hrun. destruct r as [[]|e']; [done|].
    injection Hrun as -> <-. split; [by eexists|].
    exists ([StartTransaction (ds_ref ds) level qr] ++ events
            ++ [RollbackTransaction qr]).
    split_and!.
    + simpl. rewrite registered_log, registered_runner, <- !app_assoc. done.
    + rewrite !boundaries_app, Hb. done.
    + rewrite !saved_via_app. simpl. by rewrite app_nil_r.
Qed.

Lemma failure_rolls_back_and_rethrows_witness :
  ∃ events,
    log (Transactional default_options Examples.SignupService
           Examples.service
           (exec Examples.service
              (Seq (Examples.createOrganization "org")
                 (Call default_options Examples.UserService Examples.service
                    (ThrowError (Error "User creation failed")))))
           ∅ empty_heap).2
    = log empty_heap ++ events
    ∧ boundaries events = [StartTransaction 0 None 0; RollbackTransaction 0]
    ∧ Forall (eq (TransactionManager 0 0)) (saved_via events).
Proof.
  refine (proj2 (proj2 (proj2 (failure_rolls_back_and_rethrows
    default_options Examples.SignupService Examples.service
    Examples.testDataSource ∅ empty_heap _ _)) _
    (Seq (Examples.createOrganization "org")
       (Call default_options Examples.UserService Examples.service
          (ThrowError (Error "User creation failed"))))
    (Error "User creation failed") _ _ _)).
  - apply consistent_empty.
  - reflexivity.
  - left. reflexivity.
  - simpl. repeat split; discriminate.
  - reflexivity.
Defined.

(** ** REQUIRES_NEW inside a transaction *)

(** C5. A REQUIRES_NEW call on a service of [ds] made while the frame
    [outer] is active for [ds]: the operation runs inside
    [ds.transaction] with a frame of its own, different from [outer] and
    on the manager of a runner created for the call, active for [ds] in
    the context of the operation only; and however the call ends, by a
    return or by a throw, the caller's context still has [outer] active
    for [ds], [getManager] there still resolves to the manager of
    [outer], the state is still one the module can be in, and no event
    the call added to the trace commits or rolls back the runner of
    [outer]. *)
Theorem requires_new_leaves_outer_frame (options : TransactionalOptions)
    (target : Target) (this : Receiver) (ds : DataSource)
    (outer : TransactionContextData) (env : AsyncContext) (h : Heap) :
  consistent env h →
  dataSource this = Some ds →
  activeFrame env h ds = Some outer →
  propagation options = Some REQUIRES_NEW →
  let qr := next_queryRunner h in
  let level := getSupportedIsolationLevel ds (isolation options) in
  let inner := frame_of ds qr in
  let inside := <[storage_of ds h := inner]> env in
  let started := startTransaction ds level h in
  inner ≠ outer
  ∧ ctx_manager inner ≠ ctx_manager outer
  ∧ activeFrame inside started ds = Some inner
  ∧ (∀ (A : Type) (operation : Async A),
       Transactional options target this operation env h
       = match operation inside started with
         | (Returned a, h') => (Returned a, emit (CommitTransaction qr) h')
         | (Thrown e, h') => (Thrown e, emit (RollbackTransaction qr) h')
         end)
  ∧ (∀ body r h',
       Transactional options target this (exec this body) env h = (r, h') →
       activeFrame env h' ds = Some outer
       ∧ getManager this env h' = (Returned (ctx_manager outer), h')
       ∧ consistent env h'
       ∧ ∃ events,
           log h' = log h ++ events
           ∧ ∀ qr0, ctx_manager outer = TransactionManager (ds_ref ds) qr0 →
               qr0 ∉ runners events).
Proof.
  intros Hc Hds Hf Hp qr level inner inside started.
  pose proof Hf as Hf'. unfold activeFrame in Hf'.
  destruct (transactionContexts h !! ds_ref ds) as [c|] eqn:Hr; [|done].
  destruct (registered_known ds h c Hr) as [Hreg Hsto].
  destruct (frames_transactional _ _ Hc _ _ Hf') as (qr0 & Hm & Hlt).
  assert (ctx_manager inner ≠ ctx_manager outer) as Hfresh.
  { rewrite Hm. simpl. intros [= _ Heq]. subst qr. lia. }
  split_and!.
  - intros Heq. apply Hfresh. by rewrite Heq.
  - done.
  - unfold activeFrame.
    change (transactionContexts started) with (transactionContexts h).
    rewrite Hr. unfold inside. rewrite Hsto. apply lookup_insert_eq.
  - intros A operation.
    rewrite (Transactional_start _ _ _ ds) by auto.
    unfold new_transaction. by rewrite Hreg.
  - intros body r h' Hrun.
    pose proof (Transactional_extending options target this
                  (exec this body) (exec_extending this body) env h) as Hext.
    pose proof (Transactional_preserves_consistency options target this
                  (exec this body) (exec_extending this body)
                  (exec_preserves_consistency this body) env h Hc) as Hc'.
    rewrite Hrun in Hext, Hc'. simpl in Hext, Hc'.
    pose proof (ext_registry _ _ Hext _ _ Hr) as Hr'.
    split_and!.
    + unfold activeFrame. by rewrite Hr'.
    + by apply (getManager_active this ds env h' c outer).
    + done.
    + destruct (ext_log _ _ Hext) as (events & Hl & Hb).
      exists events. split; [done|].
      intros qr1 Hm1 Hin. rewrite Hm in Hm1. injection Hm1 as _ <-.
      rewrite Forall_forall in Hb. apply Hb in Hin. lia.
Qed.

Lemma requires_new_leaves_outer_frame_witness :
  let env := <[0 := frame_of Examples.testDataSource 0]> ∅ in
  let h := startTransaction Examples.testDataSource None
             (registered Examples.testDataSource empty_heap) in
  let requires_new :=
    {| isolation := None; propagation := Some REQUIRES_NEW |} in
  activeFrame env
    (Transactional requires_new Examples.UserService Examples.service
       (exec Examples.service (ThrowError (Error "User creation failed")))
       env h).2
    Examples.testDataSource
  = Some (frame_of Examples.testDataSource 0).
Proof.
  intros env h requires_new.
  refine (proj1 (proj2 (proj2 (proj2 (proj2
    (requires_new_leaves_outer_frame requires_new Examples.UserService
       Examples.service Examples.testDataSource
       (frame_of Examples.testDataSource 0) env h _ _ _ _))))
    (ThrowError (Error "User creation failed"))
    (Thrown (Error "User creation failed")) _ _)).
  - apply (consistent_started Examples.testDataSource ∅ empty_heap None
             consistent_empty).
  - reflexivity.
  - reflexivity.
  - reflexivity.
  - reflexivity.
Defined.

(** ** The scenarios of the test suite *)

Section Scenarios.
Import Examples.

(** REQUIRED inside REQUIRED, all succeeding: one transaction. *)
Example signup_commits_once :
  (exec service (signup "org" "user") ∅ empty_heap).1 = Returned tt
  ∧ log (exec service (signup "org" "user") ∅ empty_heap).2
    = [StartTransaction 0 None 0;
       Saved (TransactionManager 0 0) "org";
       Saved (TransactionManager 0 0) "user";
       Saved (TransactionManager 0 0) "user";
       CommitTransaction 0].
Proof. split; reflexivity. Qed.

(** The user creation fails inside [signup]: the organization saved before
    it went through the transaction that is rolled back. *)
Example signup_rolls_back_everything :
  let r :=
    exec service
      (Call default_options SignupService service
         (Seq (createOrganization "org") failing_createUser))
      ∅ empty_heap in
  r.1 = Thrown (Error "User creation failed")
  ∧ log r.2
    = [StartTransaction 0 None 0;
       Saved (TransactionManager 0 0) "org";
       RollbackTransaction 0].
Proof. split; reflexivity. Qed.

(** The same two steps without the enclosing transaction: the organization
    is committed by a transaction of its own before the failure. *)
Example without_transaction_partial_data :
  let r :=
    exec service (Seq (createOrganization "org") failing_createUser)
      ∅ empty_heap in
  r.1 = Thrown (Error "User creation failed")
  ∧ log r.2
    = [StartTransaction 0 None 0;
       Saved (TransactionManager 0 0) "org";
       CommitTransaction 0].
Proof. split; reflexivity. Qed.

(** REQUIRES_NEW inside REQUIRED: the inner call has a runner of its own,
    and the rows saved after it go through the outer one again. *)
Example separate_transactions_nest :
  log (exec service (signupWithSeparateTransactions "org" "user")
         ∅ empty_heap).2
  = [StartTransaction 0 None 0;
     Saved (TransactionManager 0 0) "org";
     StartTransaction 0 None 1;
     Saved (TransactionManager 0 1) "user";
     CommitTransaction 1;
     Saved (TransactionManager 0 0) "user";
     CommitTransaction 0].
Proof. reflexivity. Qed.

End Scenarios.

(** ** Further properties of the module *)

(** X1. A storage, once created for a [DataSource], is the one every
    later call returns: whatever service method ran in between, in
    whatever context, [getOrCreateTransactionContext] gives the same
    storage again and changes nothing. *)
Theorem storage_is_kept (ds : DataSource) (h : Heap) (this : Receiver)
    (b : Body) (env env' : AsyncContext) :
  let context := storage_of ds h in
  let later := (exec this b env (registered ds h)).2 in
  getOrCreateTransactionContext ds env' later = (Returned context, later).
Proof.
  intros context later.
  pose proof (exec_extending this b env (registered ds h)) as Hext.
  pose proof (ext_registry _ _ Hext _ _ (registered_lookup ds h)) as Hr.
  rewrite getOrCreate_returns.
  by destruct (registered_known ds later context Hr) as [-> ->].
Qed.

(** X2. Negotiating twice is negotiating once, and whatever is asked of
    sqlite, the answer is its default or one of its two levels. *)
Theorem getSupportedIsolationLevel_settles (ds : DataSource)
    (requested : option IsolationLevel) :
  getSupportedIsolationLevel ds (getSupportedIsolationLevel ds requested)
  = getSupportedIsolationLevel ds requested
  ∧ (options_type ds = "sqlite"%string →
     sqlite_level (getSupportedIsolationLevel ds requested)).
Proof.
  unfold getSupportedIsolationLevel, sqlite_level.
  destruct requested as [level|]; [|by auto].
  destruct (String.eqb (options_type ds) "sqlite") eqn:Hs.
  - split; [by destruct level|]. intros _. destruct level; simpl; auto.
  - split; [done|]. intros Heq.
    apply String.eqb_neq in Hs. done.
Qed.

Lemma getSupportedIsolationLevel_settles_witness :
  sqlite_level
    (getSupportedIsolationLevel Examples.testDataSource
       (Some READ_COMMITTED)).
Proof.
  apply (getSupportedIsolationLevel_settles Examples.testDataSource
           (Some READ_COMMITTED)).
  reflexivity.
Defined.

(** X3. A call that joins does not look at its isolation option: with a
    frame active for the [DataSource] and a propagation other than
    REQUIRES_NEW, two decorations that differ in the isolation level
    only make the same call. *)
Theorem joined_call_ignores_isolation {A} (level1 level2 :
    option IsolationLevel) (how : option Propagation) (target : Target)
    (this : Receiver) (ds : DataSource) (frame : TransactionContextData)
    (originalMethod : Async A) (env : AsyncContext) (h : Heap) :
  consistent env h →
  dataSource this = Some ds →
  activeFrame env h ds = Some frame →
  how ≠ Some REQUIRES_NEW →
  Transactional {| isolation := level1; propagation := how |}
    target this originalMethod env h
  = Transactional {| isolation := level2; propagation := how |}
      target this originalMethod env h.
Proof.
  intros Hc Hds Hf Hp.
  by rewrite !(Transactional_join _ _ _ ds _ _ _ Hds frame).
Qed.

Lemma joined_call_ignores_isolation_witness :
  let env := <[0 := frame_of Examples.testDataSource 0]> ∅ in
  let h := startTransaction Examples.testDataSource None
             (registered Examples.testDataSource empty_heap) in
  Transactional
    {| isolation := Some READ_COMMITTED; propagation := Some REQUIRED |}
    Examples.UserService Examples.service
    (exec Examples.service (SaveRow "User" "user")) env h
  = Transactional {| isolation := None; propagation := Some REQUIRED |}
      Examples.UserService Examples.service
      (exec Examples.service (SaveRow "User" "user")) env h.
Proof.
  intros env h.
  apply (joined_call_ignores_isolation _ _ _ _ _ Examples.testDataSource
           (frame_of Examples.testDataSource 0)).
  - apply (consistent_started Examples.testDataSource ∅ empty_heap None
             consistent_empty).
  - reflexivity.
  - reflexivity.
  - discriminate.
Defined.

(** X5. Asked inside a decorated method, [getCurrentTransactionManager]
    answers with the manager of the transaction the method runs in: the
    one of the runner just started when the call starts a transaction,
    the one of the active frame when the call joins.  For another
    [DataSource], for which no frame is active, it answers [null] there
    as well. *)
Theorem current_manager_inside_method (options : TransactionalOptions)
    (target : Target) (this : Receiver) (ds : DataSource)
    (env : AsyncContext) (h : Heap) :
  consistent env h →
  dataSource this = Some ds →
  let qr := next_queryRunner h in
  let ask := getCurrentTransactionManager (Some ds) in
  (activeFrame env h ds = None ∨ propagation options = Some REQUIRES_NEW →
     (Transactional options target this ask env h).1
     = Returned (Some (TransactionManager (ds_ref ds) qr)))
  ∧ (∀ frame, activeFrame env h ds = Some frame →
       propagation options ≠ Some REQUIRES_NEW →
       Transactional options target this ask env h
       = (Returned (Some (ctx_manager frame)), h))
  ∧ (∀ other, ds_ref other ≠ ds_ref ds →
       activeFrame env h other = None →
       (Transactional options target this
          (getCurrentTransactionManager (Some other)) env h).1
       = Returned None).
Proof.
  intros Hc Hds qr ask. split_and!.
  - intros Hnew. rewrite (Transactional_start _ _ _ ds) by done.
    unfold new_transaction, ask.
    rewrite getCurrentTransactionManager_lookup.
    change (storage_of ds (startTransaction ds ?l ?h0))
      with (storage_of ds h0).
    unfold storage_of at 1. rewrite registered_lookup.
    by rewrite lookup_insert_eq.
  - intros frame Hf Hp.
    rewrite (Transactional_join _ _ _ ds _ _ _ Hds frame) by done.
    unfold ask. rewrite getCurrentTransactionManager_lookup.
    rewrite activeFrame_storage, Hf by done.
    unfold activeFrame in Hf.
    destruct (transactionContexts h !! ds_ref ds) as [c|] eqn:Hr; [|done].
    by destruct (registered_known ds h c Hr) as [-> _].
  - intros other Hne Hnone.
    assert (consistent env (registered ds h)) as Hc1
      by by apply registered_consistent.
    assert (activeFrame env (registered ds h) other = None) as Hnone1.
    { unfold activeFrame in *. unfold registered,
        getOrCreateTransactionContext.
      destruct (transactionContexts h !! ds_ref ds) eqn:Hr; simpl; [done|].
      rewrite lookup_insert_ne by done. done. }
    rewrite (Transactional_branches _ _ _ ds) by done.
    destruct (_ && _).
    + rewrite getCurrentTransactionManager_lookup. simpl.
      by rewrite activeFrame_storage, Hnone1.
    + unfold new_transaction.
      rewrite getCurrentTransactionManager_lookup. simpl.
      set (level := getSupportedIsolationLevel _ _).
      pose proof (consistent_started ds env h level Hc) as Hs.
      rewrite (activeFrame_storage other _ _ Hs).
      unfold activeFrame.
      change (transactionContexts (startTransaction ds level ?h0))
        with (transactionContexts h0).
      unfold activeFrame in Hnone1.
      destruct (transactionContexts (registered ds h) !! ds_ref other)
        as [c|] eqn:Hr; [|done].
      rewrite lookup_insert_ne; [by rewrite Hnone1|].
      intros Heq. apply Hne. symmetry.
      apply (registry_injective _ _ Hc1 _ _ c); [|done].
      rewrite <- Heq. apply registered_lookup.
Qed.

Lemma current_manager_inside_method_witness :
  (Transactional default_options Examples.UserService Examples.service
     (getCurrentTransactionManager (Some Examples.testDataSource))
     ∅ empty_heap).1
  = Returned (Some (TransactionManager 0 0)).
Proof.
  refine (proj1 (current_manager_inside_method default_options
    Examples.UserService Examples.service Examples.testDataSource
    ∅ empty_heap _ _) _).
  - apply consistent_empty.
  - reflexivity.
  - left. reflexivity.
Defined.

(** X6. On a receiver without the [dataSource] property, [getManager] and
    [getRepository] throw a [TypeError], in every context and whatever
    frames are active in it, and leave the heap as it was: no storage is
    created on the way. *)
Theorem getManager_without_dataSource (this : Receiver) (entity : string)
    (env : AsyncContext) (h : Heap) :
  dataSource this = None →
  ∃ message,
    getManager this env h = (Thrown (TypeError message), h)
    ∧ getRepository this entity env h = (Thrown (TypeError message), h).
Proof.
  intros Hnone. eexists. unfold getRepository, getManager.
  unfold mbind, Async_bind. rewrite Hnone. simpl. done.
Qed.

Lemma getManager_without_dataSource_witness :
  ∃ message,
    getManager {| dataSource := None |}
      (<[0 := frame_of Examples.testDataSource 0]> ∅) empty_heap
    = (Thrown (TypeError message), empty_heap)
    ∧ getRepository {| dataSource := None |} "User"
        (<[0 := frame_of Examples.testDataSource 0]> ∅) empty_heap
      = (Thrown (TypeError message), empty_heap).
Proof.
  apply (getManager_without_dataSource {| dataSource := None |}).
  reflexivity.
Defined.

(** ** Orderly traces *)

Lemma started_app (xs ys : list Event) :
  started (xs ++ ys) = started xs ++ started ys.
Proof. unfold started. apply omap_app. Qed.

Lemma levels_app (xs ys : list Event) :
  levels (xs ++ ys) = levels xs ++ levels ys.
Proof. unfold levels. apply omap_app. Qed.

Lemma closes_app (open : list nat) (xs ys : list Event) :
  closes open (xs ++ ys) = closes open xs ≫= λ left, closes left ys.
Proof.
  revert open. induction xs as [|ev xs IH]; intros open; simpl; [done|].
  destruct ev; try done.
  - destruct open as [|innermost outer]; [done|]. by case_bool_decide.
  - destruct open as [|innermost outer]; [done|]. by case_bool_decide.
Qed.

(** Transactions opened earlier stay open under a well-behaved trace. *)
Lemma closes_under (open left below : list nat) (events : list Event) :
  closes open events = Some left →
  closes (open ++ below) events = Some (left ++ below).
Proof.
  revert open. induction events as [|ev events IH]; intros open; simpl.
  - by intros [= ->].
  - destruct ev; try apply (IH (_ :: open)); try apply IH.
    + destruct open as [|innermost outer]; [done|]. simpl.
      case_bool_decide; [apply IH | done].
    + destruct open as [|innermost outer]; [done|]. simpl.
      case_bool_decide; [apply IH | done].
Qed.

Lemma well_bracketed_app (xs ys : list Event) :
  well_bracketed xs → well_bracketed ys → well_bracketed (xs ++ ys).
Proof.
  unfold well_bracketed. intros Hx Hy. by rewrite closes_app, Hx.
Qed.

(** A transaction around a well-bracketed trace is well bracketed. *)
Lemma well_bracketed_around (connection qr : nat)
    (level : option IsolationLevel) (closing : Event)
    (events : list Event) :
  closing = CommitTransaction qr ∨ closing = RollbackTransaction qr →
  well_bracketed events →
  well_bracketed
    ([StartTransaction connection level qr] ++ events ++ [closing]).
Proof.
  unfold well_bracketed. intros Hclosing Hev. simpl.
  rewrite closes_app.
  pose proof (closes_under [] [] [qr] events Hev) as Hunder.
  simpl in Hunder. rewrite Hunder. simpl.
  destruct Hclosing as [-> | ->]; simpl; by rewrite bool_decide_eq_true_2.
Qed.

Lemma adds_unique {A} (op : Async A) (env : AsyncContext) (h : Heap)
    (xs ys : list Event) :
  adds op env h xs → adds op env h ys → xs = ys.
Proof.
  unfold adds. intros Hx Hy. rewrite Hx in Hy. by apply app_inv_head in Hy.
Qed.

(** A computation that starts no transaction and adds [events], none of
    them a boundary, from every state. *)
Lemma orderly_quiet {A} (op : Async A) :
  (∀ env h,
     next_queryRunner (op env h).2 = next_queryRunner h
     ∧ ∃ events, adds op env h events ∧ boundaries events = []) →
  orderly op.
Proof.
  intros Hop env h. destruct (Hop env h) as (Hq & events & Hadd & Hb).
  split; [lia|]. exists events. rewrite Hq, Nat.sub_diag. simpl.
  split; [done|].
  clear Hadd. unfold well_bracketed, started.
  induction events as [|ev events IH]; [done|].
  destruct ev; simpl in *; try done. by apply IH.
Qed.

Lemma bind_orderly {A B} (m : Async A) (k : A → Async B) :
  orderly m → (∀ a, orderly (k a)) → orderly (m ≫= k).
Proof.
  intros Hm Hk env h.
  destruct (Hm env h) as (Hq1 & ev1 & Hadd1 & Hwb1 & Hst1).
  unfold adds in *. unfold mbind, Async_bind.
  destruct (m env h) as [[a|e] h1]; simpl in *; [|by eauto].
  destruct (Hk a env h1) as (Hq2 & ev2 & Hadd2 & Hwb2 & Hst2).
  unfold adds in *.
  split; [lia|]. exists (ev1 ++ ev2). split_and!.
  - by rewrite Hadd2, Hadd1, app_assoc.
  - by apply well_bracketed_app.
  - rewrite started_app, Hst1, Hst2.
    replace (next_queryRunner (k a env h1).2 - next_queryRunner h)
      with ((next_queryRunner h1 - next_queryRunner h)
            + (next_queryRunner (k a env h1).2 - next_queryRunner h1))
      by lia.
    rewrite seq_app. do 2 f_equal. lia.
Qed.

Lemma try_catch_orderly {A} (body : Async A) (handler : JsError → Async A) :
  orderly body → (∀ e, orderly (handler e)) →
  orderly (try_catch body handler).
Proof.
  intros Hm Hk env h.
  destruct (Hm env h) as (Hq1 & ev1 & Hadd1 & Hwb1 & Hst1).
  unfold adds in *. unfold try_catch.
  destruct (body env h) as [[a|e] h1]; simpl in *; [by eauto|].
  destruct (Hk e env h1) as (Hq2 & ev2 & Hadd2 & Hwb2 & Hst2).
  unfold adds in *.
  split; [lia|]. exists (ev1 ++ ev2). split_and!.
  - by rewrite Hadd2, Hadd1, app_assoc.
  - by apply well_bracketed_app.
  - rewrite started_app, Hst1, Hst2.
    replace (next_queryRunner (handler e env h1).2 - next_queryRunner h)
      with ((next_queryRunner h1 - next_queryRunner h)
            + (next_queryRunner (handler e env h1).2 - next_queryRunner h1))
      by lia.
    rewrite seq_app. do 2 f_equal. lia.
Qed.

Lemma getManager_orderly (this : Receiver) : orderly (getManager this).
Proof.
  apply orderly_quiet. intros env h. unfold adds.
  unfold getManager, mbind, Async_bind.
  destruct (dataSource this) as [ds|] eqn:Hds.
  - rewrite getCurrentTransactionManager_lookup.
    destruct (env !! storage_of ds h); simpl;
      rewrite registered_runner, registered_log;
      (split; [done|]); exists []; by rewrite app_nil_r.
  - simpl. split; [done|]. exists []. by rewrite app_nil_r.
Qed.

Lemma Transactional_orderly {A} (options : TransactionalOptions)
    (target : Target) (this : Receiver) (originalMethod : Async A) :
  orderly originalMethod →
  orderly (Transactional options target this originalMethod).
Proof.
  intros Hop env h. unfold adds.
  destruct (dataSource this) as [ds|] eqn:Hds.
  - rewrite (Transactional_branches _ _ _ ds) by done.
    destruct (_ && _).
    + destruct (Hop env (registered ds h)) as (Hq & ev & Hadd & Hwb & Hst).
      unfold adds in Hadd.
      rewrite registered_runner in Hq, Hst. rewrite registered_log in Hadd.
      eauto.
    + unfold new_transaction.
      set (level := getSupportedIsolationLevel _ _).
      set (hs := startTransaction _ _ _).
      set (env' := <[_ := _]> env).
      destruct (Hop env' hs) as (Hq & ev & Hadd & Hwb & Hst).
      unfold adds in Hadd.
      assert (next_queryRunner hs = S (next_queryRunner h)) as Hqs.
      { subst hs. simpl. by rewrite registered_runner. }
      assert (log hs
              = log h ++ [StartTransaction (ds_ref ds) level
                            (next_queryRunner h)]) as Hls.
      { subst hs. simpl. by rewrite registered_log, registered_runner. }
      rewrite Hqs in Hq, Hst. rewrite Hls in Hadd.
      assert (∀ closing h',
                (closing = CommitTransaction (next_queryRunner h)
                 ∨ closing = RollbackTransaction (next_queryRunner h)) →
                h' = (originalMethod env' hs).2 →
                (next_queryRunner h ≤ next_queryRunner (emit closing h'))
                ∧ ∃ events,
                    log (emit closing h') = log h ++ events
                    ∧ well_bracketed events
                    ∧ started events
                      = seq (next_queryRunner h)
                          (next_queryRunner (emit closing h')
                           - next_queryRunner h)) as Hclose.
      { intros closing h' Hclosing ->. simpl. split; [lia|].
        exists ([StartTransaction (ds_ref ds) level (next_queryRunner h)]
                ++ ev ++ [closing]).
        split_and!.
        - by rewrite Hadd, <- !app_assoc.
        - by apply well_bracketed_around.
        - rewrite !started_app, Hst.
          replace (started [closing]) with (@nil nat)
            by (by destruct Hclosing as [-> | ->]).
          rewrite app_nil_r. simpl.
          replace (next_queryRunner (originalMethod env' hs).2
                   - next_queryRunner h)
            with (S (next_queryRunner (originalMethod env' hs).2
                     - S (next_queryRunner h))) by lia.
          done. }
      destruct (originalMethod env' hs) as [[a|e] h'] eqn:Hrun; simpl;
        apply Hclose; auto.
  - unfold Transactional. rewrite Hds. simpl. split; [done|].
    exists []. rewrite app_nil_r, Nat.sub_diag. done.
Qed.

Lemma exec_orderly (this : Receiver) (b : Body) : orderly (exec this b).
Proof.
  revert this.
  induction b as [| first IH1 second IH2 | entity row | e
                 | options target callee method IH | body IH1 handler IH2];
    intros this; simpl.
  - apply orderly_quiet. intros env h. split; [done|].
    exists []. unfold adds. simpl. by rewrite app_nil_r.
  - apply bind_orderly; auto.
  - apply bind_orderly.
    + apply bind_orderly; [apply getManager_orderly|].
      intros m. apply orderly_quiet. intros env h. split; [done|].
      exists []. unfold adds. simpl. by rewrite app_nil_r.
    + intros repository. apply orderly_quiet. intros env h.
      split; [done|]. by eexists [_].
  - apply orderly_quiet. intros env h. split; [done|].
    exists []. unfold adds. simpl. by rewrite app_nil_r.
  - apply Transactional_orderly, IH.
  - apply try_catch_orderly; auto.
Qed.

(** X7. Whatever a service method does (rows, throws, nested decorated
    calls of any propagation on any [DataSource], [try]/[catch]) and
    however it ends, the events it adds to the trace are well bracketed:
    every transaction it starts is committed or rolled back, once, and
    not before the transactions started inside it. *)
Theorem transactions_are_well_bracketed (this : Receiver) (b : Body)
    (env : AsyncContext) (h : Heap) :
  ∃ events,
    log (exec this b env h).2 = log h ++ events ∧ well_bracketed events.
Proof.
  destruct (exec_orderly this b env h) as (_ & events & Hadd & Hwb & _).
  by exists events.
Qed.


(** Out of order, a trace is not well bracketed. *)
Example interleaved_is_not_well_bracketed :
  ¬ well_bracketed
      [StartTransaction 0 None 0; StartTransaction 0 None 1;
       CommitTransaction 0; CommitTransaction 1]
  ∧ ¬ well_bracketed [StartTransaction 0 None 0]
  ∧ ¬ well_bracketed [RollbackTransaction 0].
Proof. split_and!; discriminate. Qed.

(** ** Levels that reach sqlite *)

Lemma negotiated_sqlite_level (ds : DataSource)
    (requested : option IsolationLevel) :
  options_type ds = "sqlite"%string →
  sqlite_level (getSupportedIsolationLevel ds requested).
Proof.
  intros Hs. unfold getSupportedIsolationLevel, sqlite_level.
  rewrite Hs. simpl. destruct requested as [[]|]; simpl; auto.
Qed.

Lemma bind_within_sqlite {A B} (m : Async A) (k : A → Async B) :
  within_sqlite m → (∀ a, within_sqlite (k a)) → within_sqlite (m ≫= k).
Proof.
  intros Hm Hk env h. destruct (Hm env h) as (ev1 & Hadd1 & Hl1).
  unfold adds in *. unfold mbind, Async_bind.
  destruct (m env h) as [[a|e] h1]; simpl in *; [|by eauto].
  destruct (Hk a env h1) as (ev2 & Hadd2 & Hl2). unfold adds in *.
  exists (ev1 ++ ev2). split.
  - by rewrite Hadd2, Hadd1, app_assoc.
  - rewrite levels_app. by apply Forall_app.
Qed.

Lemma silent_within_sqlite {A} (op : Async A) :
  (∀ env h, ∃ events, adds op env h events ∧ boundaries events = []) →
  within_sqlite op.
Proof.
  intros Hop env h. destruct (Hop env h) as (events & Hadd & Hb).
  exists events. split; [done|]. clear Hadd. unfold levels.
  induction events as [|ev events IH]; [constructor|].
  destruct ev; simpl in *; try done. by apply IH.
Qed.

Lemma getManager_within_sqlite (this : Receiver) :
  within_sqlite (getManager this).
Proof.
  apply silent_within_sqlite. intros env h. unfold adds.
  unfold getManager, mbind, Async_bind.
  destruct (dataSource this) as [ds|] eqn:Hds.
  - rewrite getCurrentTransactionManager_lookup.
    destruct (env !! storage_of ds h); simpl; rewrite registered_log;
      exists []; by rewrite app_nil_r.
  - simpl. exists []. by rewrite app_nil_r.
Qed.

Lemma Transactional_within_sqlite {A} (options : TransactionalOptions)
    (target : Target) (this : Receiver) (originalMethod : Async A) :
  (∀ ds, dataSource this = Some ds → options_type ds = "sqlite"%string) →
  within_sqlite originalMethod →
  within_sqlite (Transactional options target this originalMethod).
Proof.
  intros Hsqlite Hop env h. unfold adds.
  destruct (dataSource this) as [ds|] eqn:Hds.
  - rewrite (Transactional_branches _ _ _ ds) by done.
    destruct (_ && _).
    + destruct (Hop env (registered ds h)) as (ev & Hadd & Hl).
      unfold adds in Hadd. rewrite registered_log in Hadd. eauto.
    + unfold new_transaction.
      set (level := getSupportedIsolationLevel _ _).
      set (hs := startTransaction _ _ _).
      set (env' := <[_ := _]> env).
      destruct (Hop env' hs) as (ev & Hadd & Hl). unfold adds in Hadd.
      assert (log hs
              = log h ++ [StartTransaction (ds_ref ds) level
                            (next_queryRunner h)]) as Hls.
      { subst hs. simpl. by rewrite registered_log, registered_runner. }
      rewrite Hls in Hadd.
      assert (sqlite_level level) as Hlevel
        by (apply negotiated_sqlite_level; auto).
      destruct (originalMethod env' hs) as [[a|e] h'] eqn:Hrun;
        simpl in Hadd |- *;
        eexists ([StartTransaction (ds_ref ds) level (next_queryRunner h)]
                 ++ ev ++ [_]);
        (split; [by rewrite Hadd, <- !app_assoc|]);
        rewrite !levels_app; simpl; rewrite app_nil_r;
        by constructor.
  - unfold Transactional. rewrite Hds. simpl.
    exists []. rewrite app_nil_r. by split; [|constructor].
Qed.

Lemma exec_within_sqlite (b : Body) :
  Forall (λ callee, ∀ ds, dataSource callee = Some ds →
                          options_type ds = "sqlite"%string) (callees b) →
  ∀ this, within_sqlite (exec this b).
Proof.
  induction b as [| first IH1 second IH2 | entity row | e
                 | options target callee method IH | body IH1 handler IH2];
    simpl; intros Hall this.
  - apply silent_within_sqlite. intros env h. exists [].
    unfold adds. simpl. by rewrite app_nil_r.
  - apply Forall_app in Hall as [H1 H2]. apply bind_within_sqlite; auto.
  - apply bind_within_sqlite.
    + apply bind_within_sqlite; [apply getManager_within_sqlite|].
      intros m. apply silent_within_sqlite. intros env h. exists [].
      unfold adds. simpl. by rewrite app_nil_r.
    + intros repository. apply silent_within_sqlite. intros env h.
      by eexists [_].
  - apply silent_within_sqlite. intros env h. exists [].
    unfold adds. simpl. by rewrite app_nil_r.
  - apply Forall_cons in Hall as [Hcallee Hall].
    apply Transactional_within_sqlite; auto.
  - apply Forall_app in Hall as [H1 H2].
    intros env h. destruct (IH1 H1 this env h) as (ev1 & Hadd1 & Hl1).
    unfold adds in *. unfold try_catch.
    destruct (exec this body env h) as [[a|e] h1]; simpl in *; [by eauto|].
    destruct (IH2 H2 this env h1) as (ev2 & Hadd2 & Hl2). unfold adds in *.
    exists (ev1 ++ ev2). split.
    + by rewrite Hadd2, Hadd1, app_assoc.
    + rewrite levels_app. by apply Forall_app.
Qed.

(** X4. When the services a method calls are all on sqlite, every
    transaction the method starts is started at a level sqlite has, or
    at its default, whatever levels the decorations ask for: READ
    COMMITTED and REPEATABLE READ never reach the database. *)
Theorem sqlite_gets_supported_levels (this : Receiver) (b : Body)
    (env : AsyncContext) (h : Heap) :
  Forall (λ callee, ∀ ds, dataSource callee = Some ds →
                          options_type ds = "sqlite"%string) (callees b) →
  ∃ events,
    log (exec this b env h).2 = log h ++ events
    ∧ Forall sqlite_level (levels events)
    ∧ (Some READ_COMMITTED ∉ levels events)
    ∧ (Some REPEATABLE_READ ∉ levels events).
Proof.
  intros Hall.
  destruct (exec_within_sqlite b Hall this env h) as (events & Hadd & Hl).
  exists events. rewrite Forall_forall in Hl.
  split_and!; [done | by apply Forall_forall | |];
    intros Hin; apply Hl in Hin;
    by destruct Hin as [? | [? | ?]].
Qed.

Lemma sqlite_gets_supported_levels_witness :
  ∃ events,
    log (exec Examples.service
           (Call {| isolation := Some READ_COMMITTED; propagation := None |}
              Examples.UserService Examples.service
              (SaveRow "User" "user"))
           ∅ empty_heap).2
    = log empty_heap ++ events
    ∧ Forall sqlite_level (levels events)
    ∧ (Some READ_COMMITTED ∉ levels events)
    ∧ (Some REPEATABLE_READ ∉ levels events).
Proof.
  apply (sqlite_gets_supported_levels Examples.service).
  repeat constructor. intros ds [= <-]. reflexivity.
Defined.

(** ** Exact traces *)

Lemma exec_joined_exact (ds : DataSource) (b : Body) :
  ∀ (this : Receiver) (env : AsyncContext) (h : Heap) (context : nat)
    (frame : TransactionContextData),
    dataSource this = Some ds →
    all_required_on ds b →
    throws_nothing b →
    transactionContexts h !! ds_ref ds = Some context →
    env !! context = Some frame →
    exec this b env h
    = (Returned tt, logged (map (Saved (ctx_manager frame)) (rows b)) h).
Proof.
  induction b as [| first IH1 second IH2 | entity row | e
                 | options target callee method IH | body IH1 handler IH2];
    intros this env h context frame Hds Hall Hquiet Hr Hf;
    simpl in Hall, Hquiet |- *.
  - by rewrite logged_nil.
  - destruct Hall as [Hall1 Hall2]. destruct Hquiet as [Hq1 Hq2].
    unfold mbind, Async_bind.
    rewrite (IH1 this env h context frame) by done.
    rewrite (IH2 this env _ context frame) by done.
    by rewrite logged_app, map_app.
  - unfold getRepository, mbind, Async_bind.
    by rewrite (getManager_active this ds env h context frame).
  - done.
  - destruct Hall as (Hp & Hcallee & Hall).
    rewrite (Transactional_branches _ _ _ ds) by done.
    destruct (registered_known ds h context Hr) as [-> ->].
    rewrite Hf, !bool_decide_eq_true_2 by eauto. simpl.
    by apply (IH callee env h context frame).
  - destruct Hall as [Hall1 _]. destruct Hquiet as [Hq1 _].
    unfold try_catch.
    by rewrite (IH1 this env h context frame).
Qed.


Lemma transacted_runner (ds : DataSource) (level : option IsolationLevel)
    (events : list Event) (closing : Event) (h : Heap) :
  next_queryRunner (transacted ds level events closing h)
  = S (next_queryRunner h).
Proof. unfold transacted. simpl. by rewrite registered_runner. Qed.


(** A transaction of joined work that throws nothing. *)
Lemma new_transaction_exact (options : TransactionalOptions)
    (this : Receiver) (ds : DataSource) (body : Body) (env : AsyncContext)
    (h : Heap) :
  dataSource this = Some ds →
  all_required_on ds body →
  throws_nothing body →
  new_transaction options ds (exec this body) env h
  = (Returned tt,
     transacted ds (getSupportedIsolationLevel ds (isolation options))
       (map (Saved (TransactionManager (ds_ref ds) (next_queryRunner h)))
          (rows body))
       (CommitTransaction (next_queryRunner h)) h).
Proof.
  intros Hds Hall Hquiet. unfold new_transaction, transacted.
  rewrite (exec_joined_exact ds body this _ _ (storage_of ds h)
             (frame_of ds (next_queryRunner h))); try done.
  - apply registered_lookup.
  - apply lookup_insert_eq.
Qed.

(** A heap that has the registry of [h], where [ds] is registered. *)
Lemma registered_already (ds : DataSource) (h h1 : Heap) :
  transactionContexts h1 = transactionContexts (registered ds h) →
  registered ds h1 = h1 ∧ storage_of ds h1 = storage_of ds h.
Proof.
  intros Heq. apply registered_known.
  rewrite Heq. apply registered_lookup.
Qed.



(** ** The example services *)


(** Starting a transaction where the storage exists. *)
Lemma Transactional_start_registered {A} (options : TransactionalOptions)
    (target : Target) (this : Receiver) (ds : DataSource)
    (originalMethod : Async A) (env : AsyncContext) (h : Heap)
    (context : nat) :
  dataSource this = Some ds →
  transactionContexts h !! ds_ref ds = Some context →
  env !! context = None ∨ propagation options = Some REQUIRES_NEW →
  Transactional options target this originalMethod env h
  = new_transaction options ds originalMethod env h.
Proof.
  intros Hds Hr Hnew. rewrite (Transactional_branches _ _ _ ds) by done.
  destruct (registered_known ds h context Hr) as [_ ->].
  destruct Hnew as [-> | ->].
  - by rewrite bool_decide_eq_false_2 by (by intros [? ?]).
  - rewrite (bool_decide_eq_false_2 (_ ≠ _)) by (by intros Hne; apply Hne).
    by rewrite andb_false_r.
Qed.

(** A transaction of joined work, started where the storage exists. *)
Lemma Transactional_transacted (options : TransactionalOptions)
    (target : Target) (this : Receiver) (ds : DataSource) (body : Body)
    (env : AsyncContext) (h : Heap) (context : nat) :
  dataSource this = Some ds →
  transactionContexts h !! ds_ref ds = Some context →
  env !! context = None ∨ propagation options = Some REQUIRES_NEW →
  all_required_on ds body →
  throws_nothing body →
  Transactional options target this (exec this body) env h
  = (Returned tt,
     transacted ds (getSupportedIsolationLevel ds (isolation options))
       (map (Saved (TransactionManager (ds_ref ds) (next_queryRunner h)))
          (rows body))
       (CommitTransaction (next_queryRunner h)) h).
Proof.
  intros Hds Hr Hnew Hall Hquiet.
  rewrite (Transactional_start_registered _ _ _ ds _ _ _ context) by done.
  by rewrite new_transaction_exact.
Qed.

Lemma getManager_default (this : Receiver) (ds : DataSource)
    (env : AsyncContext) (h : Heap) (context : nat) :
  dataSource this = Some ds →
  transactionContexts h !! ds_ref ds = Some context →
  env !! context = None →
  getManager this env h = (Returned (manager ds), h).
Proof.
  intros Hds Hr Hf. unfold getManager, mbind, Async_bind. rewrite Hds.
  rewrite getCurrentTransactionManager_lookup.
  destruct (registered_known ds h context Hr) as [-> ->].
  by rewrite Hf.
Qed.



(** ** The nesting the decorator implements *)

Lemma getManager_consistent (this : Receiver) (ds : DataSource)
    (env : AsyncContext) (h : Heap) :
  consistent env h →
  dataSource this = Some ds →
  getManager this env h
  = (Returned (default (manager ds) (ctx_manager <$> activeFrame env h ds)),
     registered ds h).
Proof.
  intros Hc Hds. unfold getManager, mbind, Async_bind. rewrite Hds.
  rewrite getCurrentTransactionManager_lookup.
  rewrite activeFrame_storage by done.
  by destruct (activeFrame env h ds).
Qed.

(** The frame active for [ds] is the same once more is in the heap. *)
Lemma activeFrame_kept (ds : DataSource) (env : AsyncContext)
    (h h' : Heap) :
  consistent env h →
  extends (registered ds h) h' →
  activeFrame env h' ds = activeFrame env h ds.
Proof.
  intros Hc Hext.
  pose proof (ext_registry _ _ Hext _ _ (registered_lookup ds h)) as Hr.
  unfold activeFrame at 1. rewrite Hr. by apply activeFrame_storage.
Qed.

Lemma exec_reference (ds : DataSource) (b : Body) :
  ∀ (this : Receiver) (env : AsyncContext) (h : Heap),
    consistent env h →
    dataSource this = Some ds →
    Forall (λ callee, dataSource callee = Some ds) (callees b) →
    let ran :=
      reference ds (ctx_manager <$> activeFrame env h ds)
        (next_queryRunner h) b in
    ∃ h',
      exec this b env h = (ran_outcome ran, h')
      ∧ log h' = log h ++ ran_events ran
      ∧ next_queryRunner h' = ran_next ran
      ∧ activeFrame env h' ds = activeFrame env h ds.
Proof.
  induction b as [| first IH1 second IH2 | entity row | e
                 | options target callee method IH | body IH1 handler IH2];
    intros this env h Hc Hds Hall; simpl in Hall |- *.
  - exists h. by rewrite app_nil_r.
  - apply Forall_app in Hall as [Hall1 Hall2].
    destruct (IH1 this env h Hc Hds Hall1) as (h1 & Hrun1 & Hl1 & Hq1 & Hf1).
    pose proof (exec_preserves_consistency this first env h Hc) as Hc1.
    rewrite Hrun1 in Hc1. simpl in Hc1.
    unfold mbind, Async_bind. rewrite Hrun1.
    destruct (ran_outcome (reference ds _ _ first)) as [[]|e] eqn:Hout.
    + destruct (IH2 this env h1 Hc1 Hds Hall2)
        as (h2 & Hrun2 & Hl2 & Hq2 & Hf2).
      rewrite Hf1, Hq1 in Hrun2, Hl2, Hq2.
      exists h2. simpl. split_and!; [done | | done | congruence].
      rewrite Hl2, Hl1. by rewrite <- app_assoc.
    + exists h1. by rewrite Hout.
  - unfold getRepository, mbind, Async_bind.
    rewrite (getManager_consistent this ds) by done.
    eexists. split; [reflexivity|]. simpl.
    rewrite registered_log, registered_runner. split_and!; try done.
    apply (activeFrame_kept ds env h); [done|]. apply extends_saved.
  - exists h. by rewrite app_nil_r.
  - apply Forall_cons in Hall as [Hcallee Hall].
    rewrite (Transactional_branches _ _ _ ds) by done.
    rewrite activeFrame_storage by done.
    assert (bool_decide (is_Some (ctx_manager <$> activeFrame env h ds))
            = bool_decide (is_Some (activeFrame env h ds))) as ->
      by (by destruct (activeFrame env h ds)).
    destruct (bool_decide (is_Some (activeFrame env h ds))
              && bool_decide (propagation options ≠ Some REQUIRES_NEW))
      eqn:Hcond.
    + (* the call joins *)
      apply andb_prop in Hcond as [Hsome _].
      apply bool_decide_eq_true_1 in Hsome as [frame Hf].
      pose proof Hf as Hf'. unfold activeFrame in Hf'.
      destruct (transactionContexts h !! ds_ref ds) as [c|] eqn:Hr; [|done].
      destruct (registered_known ds h c Hr) as [-> _].
      apply (IH callee env h Hc Hcallee Hall).
    + (* the call starts a transaction *)
      unfold new_transaction.
      set (level := getSupportedIsolationLevel ds (isolation options)).
      pose proof (consistent_started ds env h level Hc) as Hcs.
      set (hs := startTransaction ds level (registered ds h)) in *.
      set (env' := <[storage_of ds h := frame_of ds (next_queryRunner h)]>
                     env) in *.
      assert (ctx_manager <$> activeFrame env' hs ds
              = Some (TransactionManager (ds_ref ds) (next_queryRunner h)))
        as Hfs.
      { unfold activeFrame.
        change (transactionContexts hs)
          with (transactionContexts (registered ds h)).
        rewrite registered_lookup. subst env'.
        by rewrite lookup_insert_eq. }
      assert (next_queryRunner hs = S (next_queryRunner h)) as Hqs.
      { subst hs. simpl. by rewrite registered_runner. }
      destruct (IH callee env' hs Hcs Hcallee Hall)
        as (h2 & Hrun & Hl & Hq & _).
      rewrite Hfs, Hqs in Hrun, Hl, Hq.
      rewrite Hrun.
      assert (log hs
              = log h ++ [StartTransaction (ds_ref ds) level
                            (next_queryRunner h)]) as Hls.
      { subst hs. simpl. by rewrite registered_log, registered_runner. }
      assert (activeFrame env h2 ds = activeFrame env h ds) as Hkept.
      { apply activeFrame_kept; [done|].
        eapply extends_trans; [apply (extends_startTransaction ds level)|].
        pose proof (exec_extending callee method env' hs) as Hext.
        by rewrite Hrun in Hext. }
      destruct (ran_outcome (reference ds _ _ method)) as [[]|e] eqn:Hout;
        (eexists; split; [reflexivity|]); simpl;
        rewrite Hl, Hls, <- !app_assoc; split_and!; done.
  - apply Forall_app in Hall as [Hall1 Hall2].
    destruct (IH1 this env h Hc Hds Hall1) as (h1 & Hrun1 & Hl1 & Hq1 & Hf1).
    pose proof (exec_preserves_consistency this body env h Hc) as Hc1.
    rewrite Hrun1 in Hc1. simpl in Hc1.
    unfold try_catch. rewrite Hrun1.
    destruct (ran_outcome (reference ds _ _ body)) as [[]|e] eqn:Hout.
    + exists h1. by rewrite Hout.
    + destruct (IH2 this env h1 Hc1 Hds Hall2)
        as (h2 & Hrun2 & Hl2 & Hq2 & Hf2).
      rewrite Hf1, Hq1 in Hrun2, Hl2, Hq2.
      exists h2. simpl. split_and!; [done | | done | congruence].
      rewrite Hl2, Hl1. by rewrite <- app_assoc.
Qed.

(** X11. For services that are all on one [DataSource], the storages,
    the execution contexts and the wrapper together implement plain
    nesting: running a body, whatever it contains, ends as the reference
    reading of it ends, adds to the trace the events that reading gives,
    and uses the runners it uses, the manager in force at the start
    being the one of the frame active for the [DataSource], if any. *)
Theorem decorator_implements_nesting (ds : DataSource) (this : Receiver)
    (b : Body) (env : AsyncContext) (h : Heap) :
  consistent env h →
  dataSource this = Some ds →
  Forall (λ callee, dataSource callee = Some ds) (callees b) →
  let ran :=
    reference ds (ctx_manager <$> activeFrame env h ds)
      (next_queryRunner h) b in
  ∃ h',
    exec this b env h = (ran_outcome ran, h')
    ∧ log h' = log h ++ ran_events ran
    ∧ next_queryRunner h' = ran_next ran.
Proof.
  intros Hc Hds Hall ran.
  destruct (exec_reference ds b this env h Hc Hds Hall)
    as (h' & Hrun & Hl & Hq & _).
  by exists h'.
Qed.

Lemma decorator_implements_nesting_witness :
  ∃ h',
    exec Examples.service
      (Examples.signupWithSeparateTransactions "org" "user") ∅ empty_heap
    = (Returned tt, h')
    ∧ log h'
      = log empty_heap
        ++ [StartTransaction 0 None 0;
            Saved (TransactionManager 0 0) "org";
            StartTransaction 0 None 1;
            Saved (TransactionManager 0 1) "user";
            CommitTransaction 1;
            Saved (TransactionManager 0 0) "user";
            CommitTransaction 0]
    ∧ next_queryRunner h' = 2.
Proof.
  apply (decorator_implements_nesting Examples.testDataSource
           Examples.service
           (Examples.signupWithSeparateTransactions "org" "user")
           ∅ empty_heap).
  - apply consistent_empty.
  - reflexivity.
  - repeat constructor.
Defined.







(** ** Two [DataSource]s *)

(** X15. Inside a transaction on [A], a decorated call on a service of
    another [DataSource] [B], for which no frame is active, does not
    join: whatever its propagation, it is a new transaction on [B].
    Inside it the frames of both are active, each for its own
    [DataSource]; and once the call is over, however it ends, the frame
    of [A] is active as before and none is for [B]. *)
Theorem other_dataSource_gets_own_transaction
    (options : TransactionalOptions) (target : Target) (this : Receiver)
    (A B : DataSource) (outer : TransactionContextData)
    (env : AsyncContext) (h : Heap) :
  consistent env h →
  dataSource this = Some B →
  activeFrame env h A = Some outer →
  activeFrame env h B = None →
  let qr := next_queryRunner h in
  let level := getSupportedIsolationLevel B (isolation options) in
  let inside := <[storage_of B h := frame_of B qr]> env in
  let started := startTransaction B level (registered B h) in
  (∀ (T : Type) (operation : Async T),
     Transactional options target this operation env h
     = match operation inside started with
       | (Returned a, h') => (Returned a, emit (CommitTransaction qr) h')
       | (Thrown e, h') => (Thrown e, emit (RollbackTransaction qr) h')
       end)
  ∧ activeFrame inside started A = Some outer
  ∧ activeFrame inside started B = Some (frame_of B qr)
  ∧ (∀ body r h',
       Transactional options target this (exec this body) env h = (r, h') →
       activeFrame env h' A = Some outer ∧ activeFrame env h' B = None).
Proof.
  intros Hc Hds HA HB qr level inside started.
  pose proof (consistent_started B env h level Hc) as Hcs.
  fold qr inside started in Hcs.
  assert (transactionContexts (registered B h) !! ds_ref A
          = transactionContexts h !! ds_ref A) as HregA.
  { unfold registered, getOrCreateTransactionContext.
    destruct (transactionContexts h !! ds_ref B) eqn:Hr; [done|]. simpl.
    apply lookup_insert_ne. intros Heq.
    unfold activeFrame in HA. rewrite <- Heq, Hr in HA. done. }
  pose proof HA as HA'. unfold activeFrame in HA'.
  destruct (transactionContexts h !! ds_ref A) as [cA|] eqn:HrA; [|done].
  assert (cA ≠ storage_of B h) as Hdiff.
  { intros ->. rewrite activeFrame_storage, HB in HA' by done. done. }
  assert (activeFrame inside started A = Some outer) as HinsideA.
  { unfold activeFrame.
    change (transactionContexts started)
      with (transactionContexts (registered B h)).
    rewrite HregA. unfold inside. by rewrite lookup_insert_ne. }
  split_and!.
  - intros T operation. rewrite (Transactional_start _ _ _ B) by auto.
    done.
  - done.
  - unfold activeFrame.
    change (transactionContexts started)
      with (transactionContexts (registered B h)).
    rewrite registered_lookup. apply lookup_insert_eq.
  - intros body r h' Hrun.
    rewrite (Transactional_start _ _ _ B) in Hrun by auto.
    unfold new_transaction in Hrun. fold qr level inside started in Hrun.
    pose proof (exec_extending this body inside started) as Hext.
    assert (extends (registered B h) (exec this body inside started).2)
      as HextB.
    { eapply extends_trans; [apply (extends_startTransaction B level)|].
      exact Hext. }
    assert (extends (registered A h) (exec this body inside started).2)
      as HextA.
    { destruct (registered_known A h cA HrA) as [-> _].
      eapply extends_trans; [apply (extends_registered B)|exact HextB]. }
    pose proof (activeFrame_kept A env h _ Hc HextA) as HkA.
    pose proof (activeFrame_kept B env h _ Hc HextB) as HkB.
    destruct (exec this body inside started) as [[a|e] h2];
      injection Hrun as <- <-; rewrite <- HA, <- HB; split;
      [exact HkA | exact HkB | exact HkA | exact HkB].
Qed.

Lemma other_dataSource_gets_own_transaction_witness :
  let A := Examples.testDataSource in
  let B := {| ds_ref := 1; options_type := "postgres" |} in
  let env := <[0 := frame_of A 0]> ∅ in
  let h := startTransaction A None (registered A empty_heap) in
  activeFrame (<[storage_of B h := frame_of B 1]> env)
    (startTransaction B None (registered B h)) A
  = Some (frame_of A 0)
  ∧ activeFrame (<[storage_of B h := frame_of B 1]> env)
      (startTransaction B None (registered B h)) B
    = Some (frame_of B 1).
Proof.
  intros A B env h.
  refine (let H := other_dataSource_gets_own_transaction default_options
            Examples.UserService {| dataSource := Some B |} A B
            (frame_of A 0) env h _ _ _ _ in
          conj (proj1 (proj2 H)) (proj1 (proj2 (proj2 H)))).
  - apply (consistent_started A ∅ empty_heap None consistent_empty).
  - reflexivity.
  - reflexivity.
  - reflexivity.
Defined.

(** ** A failure inside REQUIRES_NEW, caught outside *)



